(** * bloggg: a shallow embedding of the markdown site generator

    The development follows [bloggg.py] function by function:
    [parse_frontmatter], [walk_dir], [patch_referenced_files],
    [gen_breadcrumbs_html], [process_markdown] and [process_all].
    Python strings are [string]s, [pathlib] paths are their tuples of parts,
    exceptions are an explicit outcome type, and the file system together
    with the standard output is explicit state. *)

From Stdlib Require Import ZArith Lia Ascii String.
From stdpp Require Import base option list strings gmap.

Local Open Scope Z_scope.

(** ** Python exceptions and outcomes *)

Inductive exn :=
| AttributeError
| TypeError
| ValueError
| AssertionError (msg : string)
| OSError (msg : string)
| YAMLError.

(** What running a piece of Python can end in: a value, a raised exception,
    or no answer at all (a loop that never exits). *)
Inductive outcome (A : Type) :=
| Ok (a : A)
| Raise (e : exn)
| Diverge.
Arguments Ok {A} a.
Arguments Raise {A} e.
Arguments Diverge {A}.

Definition outcome_bind {A B} (f : A → outcome B) (m : outcome A) : outcome B :=
  match m with
  | Ok a => f a
  | Raise e => Raise e
  | Diverge => Diverge
  end.

#[export] Instance outcome_ret : MRet outcome := λ A a, Ok a.
#[export] Instance outcome_mbind : MBind outcome := λ A B f m, outcome_bind f m.

(** ** Python values, as far as [yaml.safe_load] produces them

    A mapping is keyed by strings: the renderer only ever looks up the string
    keys [template], [title] and [date]. [PyOther] stands for the scalars the
    renderer never inspects (floats, dates, ...), carrying their printed
    form. *)
#[warnings="-register-all"]
Inductive pyval :=
| PyNone
| PyBool (b : bool)
| PyInt (z : Z)
| PyStr (s : string)
| PyOther (printed : string)
| PyList (l : list pyval)
| PyDict (d : gmap string pyval).

(** The libraries the program calls into. *)
Class Externals := {
  (** [yaml.safe_load] *)
  yaml_safe_load : string → outcome pyval;
  (** [mistletoe.markdown] *)
  mistletoe_markdown : string → string;
  (** the builtin [str] on a loaded value *)
  py_str : pyval → string;
}.

(** ** Strings: the [str] methods the program uses *)

Module Str.

Definition len (s : string) : Z := Z.of_nat (String.length s).

(** [s.startswith(p)] *)
Fixpoint startswith (s p : string) {struct p} : bool :=
  match p with
  | EmptyString => true
  | String c p' =>
      match s with
      | EmptyString => false
      | String d s' => if Ascii.eqb c d then startswith s' p' else false
      end
  end.

Fixpoint drop (n : nat) (s : string) : string :=
  match n, s with
  | S n', String _ s' => drop n' s'
  | _, _ => s
  end.

Fixpoint take (n : nat) (s : string) : string :=
  match n, s with
  | S n', String c s' => String c (take n' s')
  | _, _ => EmptyString
  end.

(** Slice bounds: a negative bound counts from the end, and every bound is
    clamped to the length. *)
Definition norm_index (n i : Z) : nat :=
  Z.to_nat (if i <? 0 then Z.max 0 (i + n) else Z.min i n).

(** [s[lo:hi]] *)
Definition slice (s : string) (lo hi : Z) : string :=
  let a := norm_index (len s) lo in
  let b := norm_index (len s) hi in
  take (b - a) (drop a s).

(** [s[lo:]] *)
Definition slice_from (s : string) (lo : Z) : string :=
  drop (norm_index (len s) lo) s.

(** [s[:hi]] *)
Definition slice_to (s : string) (hi : Z) : string :=
  take (norm_index (len s) hi) s.

(** The lowest index at or after [i] where [sub] starts in [s]; [s] is the
    part of the searched string that begins at index [i]. *)
Fixpoint find_at (sub s : string) (i : nat) : option nat :=
  if startswith s sub then Some i
  else match s with
       | EmptyString => None
       | String _ s' => find_at sub s' (S i)
       end.

(** [s.find(sub, start)], with [-1] for "not found". *)
Definition find (s sub : string) (start : Z) : Z :=
  if len s <? start then -1
  else
    let a := norm_index (len s) start in
    match find_at sub (drop a s) a with
    | Some i => Z.of_nat i
    | None => -1
    end.

(** [s.rfind(c)] for a one-character [c], with [-1] for "not found";
    [s] begins at index [i] of the searched string. *)
Fixpoint rfind_char_at (c : ascii) (s : string) (i : nat) : option nat :=
  match s with
  | EmptyString => None
  | String d s' =>
      match rfind_char_at c s' (S i) with
      | Some j => Some j
      | None => if Ascii.eqb c d then Some i else None
      end
  end.

Definition rfind_char (s : string) (c : ascii) : Z :=
  match rfind_char_at c s 0 with
  | Some i => Z.of_nat i
  | None => -1
  end.

(** [c in s] for a one-character [c] *)
Fixpoint has_char (c : ascii) (s : string) : bool :=
  match s with
  | EmptyString => false
  | String d s' => Ascii.eqb c d || has_char c s'
  end.

(** [sep.join(l)] *)
Fixpoint join (sep : string) (l : list string) : string :=
  match l with
  | [] => EmptyString
  | [x] => x
  | x :: l' => x +:+ sep +:+ join sep l'
  end.

(** [s * n] *)
Fixpoint times (s : string) (n : nat) : string :=
  match n with
  | O => EmptyString
  | S n' => s +:+ times s n'
  end.

(** [s.split(c)] for a one-character separator *)
Fixpoint split_char (c : ascii) (s : string) : list string :=
  match s with
  | EmptyString => [EmptyString]
  | String d s' =>
      if Ascii.eqb c d then EmptyString :: split_char c s'
      else match split_char c s' with
           | [] => [String d EmptyString]
           | w :: ws => String d w :: ws
           end
  end.

(** Whitespace as [str.isspace] sees it, on code points below 256. *)
Definition is_space (c : ascii) : bool :=
  let n := nat_of_ascii c in
  ((9 <=? n) && (n <=? 13) || (28 <=? n) && (n <=? 32)
   || (n =? 133) || (n =? 160))%nat.

Fixpoint lstrip (s : string) : string :=
  match s with
  | EmptyString => EmptyString
  | String c s' => if is_space c then lstrip s' else s
  end.

Fixpoint rstrip (s : string) : string :=
  match s with
  | EmptyString => EmptyString
  | String c s' =>
      match rstrip s' with
      | EmptyString => if is_space c then EmptyString else String c EmptyString
      | r => String c r
      end
  end.

(** [s.strip()] *)
Definition strip (s : string) : string := rstrip (lstrip s).

(** [s.replace(old, new)] for a non-empty [old]: scan left to right, and
    after a replacement skip the rest of the replaced occurrence. *)
Fixpoint replace_go (old new s : string) (skip : nat) : string :=
  match s with
  | EmptyString => EmptyString
  | String c s' =>
      match skip with
      | S k => replace_go old new s' k
      | O =>
          if startswith s old
          then new +:+ replace_go old new s' (String.length old - 1)
          else String c (replace_go old new s' 0)
      end
  end.

(** With an empty [old], Python puts [new] before every character and at
    the end. *)
Fixpoint intersperse (new s : string) : string :=
  match s with
  | EmptyString => new
  | String c s' => new +:+ String c (intersperse new s')
  end.

Definition replace (s old new : string) : string :=
  match old with
  | EmptyString => intersperse new s
  | _ => replace_go old new s 0
  end.

(** [s.endswith(p)] *)
Definition endswith (s p : string) : bool :=
  (String.length p <=? String.length s)%nat
  && String.eqb (drop (String.length s - String.length p) s) p.

(** [sub in s], as a proposition. *)
Definition contains (sub s : string) : Prop :=
  ∃ a b, s = a +:+ sub +:+ b.

End Str.

(** ** [parse_frontmatter] *)

Section Frontmatter.
Context {libs : Externals}.

Definition parse_frontmatter (markdown : string) : outcome (pyval * string) :=
  let start := Str.find markdown "---" 0 in
  let end_ := Str.find markdown "---" (start + 3) in
  if bool_decide (start ≠ -1) && bool_decide (end_ ≠ -1) then
    fm ← yaml_safe_load (Str.slice markdown (start + 3) end_);
    Ok (fm, Str.slice_from markdown (end_ + 3))
  else Ok (PyNone, markdown).

End Frontmatter.

(** ** [pathlib] paths

    A path is the tuple of its parts, as [PurePosixPath.parts] shows it: an
    absolute path has the part ["/"] first, [Path('.')] has no parts. Two
    paths are equal when their parts are. *)
#[warnings="-notation-for-abbreviation"]
Notation Path := (list string).

Module Path.

(** Has the path a root? *)
Definition anchored (p : Path) : bool :=
  match p with
  | "/"%string :: _ => true
  | _ => false
  end.

(** How many leading parts belong to the root. *)
Definition anchor (p : Path) : nat := if anchored p then 1%nat else 0%nat.

(** [Path(s)]: split at the separators, drop the empty and the ["."]
    components, keep a leading separator as the root. *)
Definition of_string (s : string) : Path :=
  let comps :=
    filter (λ c, c ≠ EmptyString ∧ c ≠ "."%string) (Str.split_char "/" s) in
  if Str.startswith s "/" then "/"%string :: comps else comps.

(** [p.name]: the last part, unless it is the root. *)
Definition name (p : Path) : string :=
  if decide (length p = (if anchored p then 1 else 0)%nat) then EmptyString
  else List.last p EmptyString.

(** [p.parent]: the root and the empty path are their own parents. *)
Definition parent (p : Path) : Path :=
  if bool_decide (length p = 1%nat) && anchored p then p else removelast p.

(** The suffix of a name: from its last dot on, when that dot is neither
    the first nor the last character. *)
Definition suffix_of (name : string) : string :=
  let i := Str.rfind_char name "." in
  if bool_decide (0 < i < Str.len name - 1) then Str.slice_from name i
  else EmptyString.

(** [p.suffix] *)
Definition suffix (p : Path) : string := suffix_of (name p).

(** The stem of a name: the name without its suffix. *)
Definition stem_of (name : string) : string :=
  if decide (suffix_of name = EmptyString) then name
  else Str.slice_to name (- Str.len (suffix_of name)).

(** [p.with_suffix(suffix)] *)
Definition with_suffix (p : Path) (suffix' : string) : outcome Path :=
  if Str.has_char "/" suffix' then Raise ValueError
  else if bool_decide (suffix' ≠ EmptyString) && negb (Str.startswith suffix' ".")
          || bool_decide (suffix' = "."%string)
  then Raise ValueError
  else
    let name := name p in
    if decide (name = EmptyString) then Raise ValueError
    else
      let old_suffix := suffix p in
      let name :=
        if decide (old_suffix = EmptyString) then name +:+ suffix'
        else Str.slice_to name (- Str.len old_suffix) +:+ suffix' in
      Ok (removelast p ++ [name]).

(** [p / q] for a path [q] *)
Definition join (p q : Path) : Path :=
  if anchored q then q else p ++ q.

(** [p / s] for a string [s] *)
Definition join_str (p : Path) (s : string) : Path := join p (of_string s).

(** [p.relative_to(other)] *)
Definition relative_to (p other : Path) : outcome Path :=
  match other with
  | [] => if anchored p then Raise ValueError else Ok p
  | _ =>
      if decide (take (length other) p = other) then Ok (drop (length other) p)
      else Raise ValueError
  end.

(** [p.is_relative_to(other)]: [p] is [other] or lies below it. *)
Definition is_relative_to (p other : Path) : bool :=
  match relative_to p other with
  | Ok _ => true
  | _ => false
  end.

(** [str(p)] *)
Definition to_str (p : Path) : string :=
  match p with
  | [] => "."
  | "/"%string :: t => "/" +:+ Str.join "/" t
  | _ => Str.join "/" p
  end.

End Path.

Infix "/:" := Path.join_str (at level 40, left associativity).

(** The double quote, for the HTML the program writes and matches. *)
Definition dq : string := String "034"%char EmptyString.

(** The line feed. *)
Definition nl : string := String "010"%char EmptyString.

(** ** [gen_breadcrumbs_html] *)

(** [enumerate(l)], counting from [i] *)
Fixpoint enumerate_from {A} (i : nat) (l : list A) : list (nat * A) :=
  match l with
  | [] => []
  | x :: l' => (i, x) :: enumerate_from (S i) l'
  end.

(** The directory the walk starts from: the path without its suffix, and
    its parent when that names an index page. *)
Definition start_dir (file_dir : Path) : outcome Path :=
  file_dir ← Path.with_suffix file_dir EmptyString;
  Ok (if decide (Path.name file_dir = "index"%string)
      then Path.parent file_dir else file_dir).

(** The [while file_dir != input_root] loop; [fuel] bounds the number of
    iterations, and [None] says the bound was reached before the loop exit. *)
Fixpoint walk_up (fuel : nat) (file_dir input_root : Path)
    (breadcrumbs : list Path) : option (list Path) :=
  if decide (file_dir = input_root) then Some breadcrumbs
  else match fuel with
       | O => None
       | S fuel' =>
           walk_up fuel' (Path.parent file_dir) input_root
             (breadcrumbs ++ [file_dir])
       end.

(** Everything the function collects: the walked directories, then the
    root. *)
Definition collect_breadcrumbs (fuel : nat) (file_dir input_root : Path)
    : option (list Path) :=
  breadcrumbs ← walk_up fuel file_dir input_root [];
  Some (breadcrumbs ++ [input_root]).

Definition crumb_name (i : nat) (crumb : Path) : string :=
  if bool_decide (i = 0%nat) then "root"%string else Path.name crumb.

Definition crumb_href (n i : nat) : string :=
  Str.join "/" (replicate (n - 1 - i) ".."%string).

(** One round of the rendering loop. *)
Definition render_crumb (n : nat) (html : string) (ic : nat * Path) : string :=
  let html :=
    if bool_decide (ic.1 ≠ 0%nat) then html +:+ " / " else html in
  html +:+ "<a href=" +:+ dq +:+ crumb_href n ic.1 +:+ dq +:+ ">"
       +:+ crumb_name ic.1 ic.2 +:+ "</a>".

Definition breadcrumbs_html (breadcrumbs : list Path) : string :=
  if decide (length breadcrumbs = 1%nat) then EmptyString
  else
    let html := "<nav class=" +:+ dq +:+ "breadcrumbs" +:+ dq +:+ ">" in
    let html :=
      foldl (render_crumb (length breadcrumbs)) html
        (enumerate_from 0 (reverse breadcrumbs)) in
    html +:+ "</nav>".

(** The function with its loop bounded by [fuel]. *)
Definition gen_breadcrumbs_html_fuel (fuel : nat) (file_dir input_root : Path)
    : option (outcome string) :=
  match start_dir file_dir with
  | Ok file_dir =>
      breadcrumbs ← collect_breadcrumbs fuel file_dir input_root;
      Some (Ok (breadcrumbs_html breadcrumbs))
  | Raise e => Some (Raise e)
  | Diverge => Some Diverge
  end.

(** The function itself. A walk that has not met the root after as many
    steps as the starting directory has parts never meets it
    ([walk_up_bound] below), so running out of this fuel is divergence. *)
Definition gen_breadcrumbs_html (file_dir input_root : Path) : outcome string :=
  match gen_breadcrumbs_html_fuel (length file_dir) file_dir input_root with
  | Some o => o
  | None => Diverge
  end.

(** The names of the crumbs in the order they are rendered. *)
Definition crumb_labels (breadcrumbs : list Path) : list string :=
  (λ ic, crumb_name ic.1 ic.2) <$> enumerate_from 0 (reverse breadcrumbs).

(** Markup, to state what is rendered: a link, and the navigation
    container around links joined by the separator. *)
Definition a_tag (href label : string) : string :=
  "<a href=" +:+ dq +:+ href +:+ dq +:+ ">" +:+ label +:+ "</a>".

Definition attr (name value : string) : string :=
  name +:+ "=" +:+ dq +:+ value +:+ dq.

Definition nav (links : list string) : string :=
  "<nav class=" +:+ dq +:+ "breadcrumbs" +:+ dq +:+ ">"
    +:+ Str.join " / " links +:+ "</nav>".

(** ** [patch_referenced_files] *)

(** A match of the pattern [(href|src)=Q([^Q]+)Q], where Q is the double
    quote: the two groups and the span of the second. *)
Record re_match := {
  m_attr : string;
  m_file : string;
  m_start2 : Z;
  m_end2 : Z;
}.

(** The longest prefix without a double quote, and what follows it. *)
Fixpoint span_unquoted (s : string) : string * string :=
  match s with
  | EmptyString => (EmptyString, EmptyString)
  | String c s' =>
      if Ascii.eqb c "034" then (EmptyString, s)
      else let '(v, rest) := span_unquoted s' in (String c v, rest)
  end.

(** The pattern with [attr] for its first group, tried at the head of [s],
    which begins at index [pos]; on success also the length of the whole
    match. The greedy second group takes every character up to the next
    quote, and no shorter choice can be followed by a quote. *)
Definition match_attr (attr s : string) (pos : nat) : option (re_match * nat) :=
  if Str.startswith s (attr +:+ "=" +:+ dq) then
    let head := (String.length attr + 2)%nat in
    let '(file, rest) := span_unquoted (Str.drop head s) in
    if bool_decide (file ≠ EmptyString) && Str.startswith rest dq then
      Some ({| m_attr := attr; m_file := file;
               m_start2 := Z.of_nat (pos + head);
               m_end2 := Z.of_nat (pos + head + String.length file) |},
            (head + String.length file + 1)%nat)
    else None
  else None.

Definition match_here (s : string) (pos : nat) : option (re_match * nat) :=
  match match_attr "href" s pos with
  | Some m => Some m
  | None => match_attr "src" s pos
  end.

(** [re.finditer]: leftmost matches, none overlapping; [skip] counts the
    characters of the last match still to pass over. *)
Fixpoint finditer_from (s : string) (pos skip : nat) : list re_match :=
  match s with
  | EmptyString => []
  | String _ s' =>
      match skip with
      | S k => finditer_from s' (S pos) k
      | O =>
          match match_here s pos with
          | Some (m, n) => m :: finditer_from s' (S pos) (n - 1)
          | None => finditer_from s' (S pos) 0
          end
      end
  end.

Definition finditer (s : string) : list re_match := finditer_from s 0 0.

(** [t[:hi]] on a tuple *)
Definition tuple_slice_to {A} (t : list A) (hi : Z) : list A :=
  take (Str.norm_index (Z.of_nat (length t)) hi) t.

Definition markdown_to_root (markdown_file : Path) : string :=
  Str.times "../" (length (tuple_slice_to markdown_file (-2))) +:+ "_templates".

(** The body of the loop over the matches: the text so far and the lines
    printed so far. *)
Definition patch_match (markdown_file : Path)
    (st : string * list string) (m : re_match) : string * list string :=
  let '(final_html, printed) := st in
  if negb (Str.startswith (m_file m) "http")
     && negb (Str.startswith (m_file m) "#")
  then
    let asset_path := markdown_to_root markdown_file +:+ "/" +:+ m_file m in
    (Str.slice_to final_html (m_start2 m) +:+ asset_path
       +:+ Str.slice_from final_html (m_end2 m),
     printed ++ [" - asset " +:+ asset_path])
  else st.

(** The matches are those of the text passed in; each replacement is made
    in the text as rewritten so far. The result comes with the printed
    lines. *)
Definition patch_referenced_files (final_html : string)
    (template_file markdown_file : Path) : string * list string :=
  foldl (patch_match markdown_file) (final_html, []) (finditer final_html).

(** ** The file system and the standard output

    The operating system is an interface: what the program asks of it and
    what it may answer. Reads are functions of the current file system;
    writes return the next one. *)
Class FileSystem (F : Type) := {
  (** [p.exists()] *)
  fs_exists : F → Path → bool;
  (** [p.is_file()] *)
  fs_is_file : F → Path → bool;
  (** [open(p, 'r')] followed by [read()] *)
  fs_read : F → Path → outcome string;
  (** [open(p, 'w')] followed by [write(text)] *)
  fs_write : Path → string → F → outcome unit * F;
  (** [p.mkdir(parents=True, exist_ok=True)] *)
  fs_mkdir : Path → F → outcome unit * F;
  (** [shutil.copy(src, dst)] *)
  fs_copy : Path → Path → F → outcome unit * F;
  (** [os.walk(top)]: each directory with the names of its
      subdirectories and of its files *)
  fs_walk : F → Path → list (Path * list string * list string);
}.

(** The state a run threads through: the file system, the lines printed,
    and a record of the calls of the page renderer (kept for the proofs;
    the program has no such log). *)
Record world (F : Type) := World {
  w_fs : F;
  w_stdout : list string;
  w_rendered : list Path;
}.
Arguments World {F} _ _ _.
Arguments w_fs {F} _.
Arguments w_stdout {F} _.
Arguments w_rendered {F} _.

Definition M (F A : Type) : Type := world F → outcome A * world F.

#[export] Instance M_ret {F} : MRet (M F) := λ A a w, (Ok a, w).
#[export] Instance M_bind {F} : MBind (M F) := λ A B f m w,
  match m w with
  | (Ok a, w') => f a w'
  | (Raise e, w') => (Raise e, w')
  | (Diverge, w') => (Diverge, w')
  end.

Section Effects.
Context {F : Type} {os : FileSystem F}.

(** A computation without effects. *)
Definition lift {A} (o : outcome A) : M F A := λ w, (o, w).

Definition raise {A} (e : exn) : M F A := lift (Raise e).

(** A question to the file system. *)
Definition ask {A} (q : F → A) : M F A := λ w, (Ok (q (w_fs w)), w).

(** An operation on the file system. *)
Definition on_fs (op : F → outcome unit * F) : M F unit := λ w,
  let '(o, fs') := op (w_fs w) in
  (o, World fs' (w_stdout w) (w_rendered w)).

(** [print(line)] *)
Definition print (line : string) : M F unit := λ w,
  (Ok (), World (w_fs w) (w_stdout w ++ [line]) (w_rendered w)).

(** The record of a call of the page renderer on [file]. *)
Definition note_render (file : Path) : M F unit := λ w,
  (Ok (), World (w_fs w) (w_stdout w) (w_rendered w ++ [file])).

(** [for x in l: body(x)]; an exception leaves the loop. *)
Fixpoint for_each {A} (l : list A) (body : A → M F unit) : M F unit :=
  match l with
  | [] => mret ()
  | x :: l' => body x;; for_each l' body
  end.

(** ** [walk_dir]

    The generator is read as the list of what it yields, over the file
    system as it is when the loop starts. *)
Definition walk_dir_list (fs : F) (dir : Path) (extensions : gset string)
    : list Path :=
  '(root, _dirs, files) ← fs_walk fs dir;
  file ← files;
  if decide (Path.suffix (Path.of_string file) ∈ extensions)
  then [root /: file] else [].

Definition walk_dir (dir : Path) (extensions : gset string) : M F (list Path) :=
  ask (λ fs, walk_dir_list fs dir extensions).

(** Computations that leave the record of renders alone. *)
Definition keeps_rendered {A} (m : M F A) : Prop :=
  ∀ w, w_rendered (m w).2 = w_rendered w.

(** The state in which a render is left when it fails after its first
    line of output: only that line and the record of the call are new. *)
Definition after_first_line (file output_file : Path) (w : world F) : world F :=
  World (w_fs w)
    (w_stdout w ++ ["processing " +:+ Path.to_str file +:+ " -> "
                      +:+ Path.to_str output_file]%string)
    (w_rendered w ++ [file]).

End Effects.

(** ** Attribute access on loaded values *)

(** [v.get(key, fallback)]: only a mapping has [get]. *)
Definition py_get (v : pyval) (key : string) (fallback : pyval) : outcome pyval :=
  match v with
  | PyDict d => Ok (default fallback (d !! key))
  | _ => Raise AttributeError
  end.

(** [v.strip()]: only a string has [strip]. *)
Definition py_strip (v : pyval) : outcome string :=
  match v with
  | PyStr s => Ok (Str.strip s)
  | _ => Raise AttributeError
  end.

(** [text.replace(old, v)]: the replacement must be a string. *)
Definition py_replace (text old : string) (v : pyval) : outcome string :=
  match v with
  | PyStr s => Ok (Str.replace text old s)
  | _ => Raise TypeError
  end.

(** [key in v], asked only once [v.get] has succeeded, that is of a
    mapping. *)
Definition py_in (key : string) (v : pyval) : outcome bool :=
  match v with
  | PyDict d => Ok (bool_decide (is_Some (d !! key)))
  | _ => Raise TypeError
  end.

(** ** [process_markdown] and [process_all] *)

Section Site.
Context {libs : Externals} {F : Type} {os : FileSystem F}.

Definition resolve_template_name (frontmatter : pyval) : outcome string :=
  v ← py_get frontmatter "template" (PyStr "default");
  py_strip v.

Definition process_markdown (file input_root output_root : Path) : M F unit :=
  note_render file;;
  is_file ← ask (λ fs, fs_is_file fs file);
  let file_dir := if is_file : bool then Path.parent file else file in
  (* with open(file, 'r') as f: the text is taken as the file is opened *)
  content ← (λ w, (fs_read (w_fs w) file, w));
  rel ← lift (Path.relative_to file input_root);
  rel ← lift (Path.with_suffix rel ".html");
  let output_file := Path.join output_root rel in
  print ("processing " +:+ Path.to_str file +:+ " -> "
           +:+ Path.to_str output_file);;
  (* Parse frontmatter, find template, else use default template *)
  '(frontmatter, content) ← lift (parse_frontmatter content);
  template_name ← lift (resolve_template_name frontmatter);
  let template_file :=
    input_root /: "_templates" /: (template_name +:+ ".html") in
  template_exists ← ask (λ fs, fs_exists fs template_file);
  (if template_exists : bool then mret ()
   else raise (AssertionError ("template " +:+ Path.to_str template_file
                                 +:+ " does not exist")));;
  template ← (λ w, (fs_read (w_fs w) template_file, w));
  (* Patch all referenced files of the base template *)
  let '(template, printed) :=
    patch_referenced_files template template_file file in
  for_each printed print;;
  (* Render markdown content, replace template variables *)
  let content_html := mistletoe_markdown content in
  title ← lift (py_get frontmatter "title" (PyStr EmptyString));
  template ← lift (py_replace template "$$DOC_TITLE$$" title);
  has_date ← lift (py_in "date" frontmatter);
  template ←
    (if has_date : bool then
       date ← lift (py_get frontmatter "date" PyNone);
       mret (Str.replace template "$$DOC_DATE$$" ("Written " +:+ py_str date))
     else mret (Str.replace template "$$DOC_DATE$$" EmptyString));
  let template := Str.replace template "$$DOC_CONTENT$$" content_html in
  breadcrumbs ← lift (gen_breadcrumbs_html file input_root);
  let template := Str.replace template "$$BREADCRUMBS$$" breadcrumbs in
  (* Write to output file *)
  rel ← lift (Path.relative_to file input_root);
  rel ← lift (Path.with_suffix rel ".html");
  let output_file := Path.join output_root rel in
  on_fs (fs_mkdir (Path.parent output_file));;
  on_fs (fs_write output_file template).

(** File types that are copied directly to the output directory *)
Definition DIRECT_COPY_EXTENSIONS : gset string :=
  {[ ".html"; ".css"; ".js"; ".png"; ".jpg"; ".svg" ]}%string.

(** Copy all non-template html files *)
Definition copy_direct (input_root output_root : Path) : M F unit :=
  files ← walk_dir input_root DIRECT_COPY_EXTENSIONS;
  for_each files (λ file,
    (* Don't process files with _templates in any of the directories *)
    if decide ("_templates"%string ∈ file) then mret ()
    else
      rel ← lift (Path.relative_to file input_root);
      let output_file := Path.join output_root rel in
      on_fs (fs_mkdir (Path.parent output_file));;
      print ("processing " +:+ Path.to_str file +:+ " -> "
               +:+ Path.to_str output_file);;
      on_fs (fs_copy file output_file)).

(** Create output template directory with every file that isn't html *)
Definition copy_template_assets (input_root output_root : Path) : M F unit :=
  let out_template_dir := output_root /: "_templates" in
  on_fs (fs_mkdir out_template_dir);;
  files ← walk_dir (input_root /: "_templates")
            (DIRECT_COPY_EXTENSIONS ∖ {[ ".html"%string ]});
  for_each files (λ file,
    rel ← lift (Path.relative_to file (input_root /: "_templates"));
    let output_file := Path.join out_template_dir rel in
    on_fs (fs_mkdir (Path.parent output_file));;
    print ("processing " +:+ Path.to_str file +:+ " -> "
             +:+ Path.to_str output_file);;
    on_fs (fs_copy file output_file)).

(** Process all markdown files *)
Definition render_pages (input_root output_root : Path) : M F unit :=
  files ← walk_dir input_root {[ ".md"%string ]};
  for_each files (λ file, process_markdown file input_root output_root).

Definition process_all (input_root output_root : Path) : M F unit :=
  copy_direct input_root output_root;;
  copy_template_assets input_root output_root;;
  render_pages input_root output_root.

End Site.

(** ** A file system in memory

    Files by path with their text, and the set of directories. It
    implements the interface above and serves to run the program on
    examples. *)
Record memfs := MemFS {
  mem_files : gmap Path string;
  mem_dirs : gset Path;
}.

Module Mem.

Definition is_file (fs : memfs) (p : Path) : bool :=
  bool_decide (is_Some (mem_files fs !! p)).

Definition is_dir (fs : memfs) (p : Path) : bool :=
  bool_decide (p = [] ∨ p = ["/"%string] ∨ p ∈ mem_dirs fs).

Definition read (fs : memfs) (p : Path) : outcome string :=
  match mem_files fs !! p with
  | Some text => Ok text
  | None =>
      Raise (OSError (if is_dir fs p then "IsADirectoryError"
                      else "FileNotFoundError"))
  end.

Definition write (p : Path) (text : string) (fs : memfs)
    : outcome unit * memfs :=
  if is_dir fs p then (Raise (OSError "IsADirectoryError"), fs)
  else if is_dir fs (Path.parent p)
  then (Ok (), MemFS (<[p := text]> (mem_files fs)) (mem_dirs fs))
  else (Raise (OSError "FileNotFoundError"), fs).

(** The path and the directories above it, outermost first. *)
Definition lineage (p : Path) : list Path :=
  (λ n, take n p) <$> seq 1 (length p).

Definition mkdir (p : Path) (fs : memfs) : outcome unit * memfs :=
  if existsb (is_file fs) (lineage p)
  then (Raise (OSError "FileExistsError"), fs)
  else (Ok (), MemFS (mem_files fs) (mem_dirs fs ∪ list_to_set (lineage p))).

Definition copy (src dst : Path) (fs : memfs) : outcome unit * memfs :=
  match read fs src with
  | Ok text =>
      write (if is_dir fs dst then dst ++ [Path.name src] else dst) text fs
  | Raise e => (Raise e, fs)
  | Diverge => (Diverge, fs)
  end.

(** The names of the entries of [candidates] directly inside [d]. *)
Definition entries (d : Path) (candidates : list Path) : list string :=
  omap (λ p, if decide (Path.parent p = d ∧ p ≠ d)
             then Some (Path.name p) else None) candidates.

Definition below (top p : Path) : bool :=
  bool_decide (take (length top) p = top ∧ p ≠ top).

Definition walk (fs : memfs) (top : Path)
    : list (Path * list string * list string) :=
  if is_dir fs top then
    (λ d, (d, entries d (elements (mem_dirs fs)),
              entries d (elements (dom (mem_files fs)))))
      <$> top :: filter (λ d, below top d = true) (elements (mem_dirs fs))
  else [].

End Mem.

#[export] Instance memfs_file_system : FileSystem memfs := {|
  fs_exists fs p := Mem.is_file fs p || Mem.is_dir fs p;
  fs_is_file := Mem.is_file;
  fs_read := Mem.read;
  fs_write := Mem.write;
  fs_mkdir := Mem.mkdir;
  fs_copy := Mem.copy;
  fs_walk := Mem.walk;
|}.

(** ** Sample libraries

    A stand-in for the libraries, to run examples: a loader for flat
    [key: value] documents with string values, a renderer that wraps the
    text in a paragraph, and [str] on scalars. *)
Module Sample.

Definition yaml_line (line : string) : option (string * pyval) :=
  let i := Str.find line ":" 0 in
  if i <? 0 then None
  else Some (Str.strip (Str.slice_to line i),
             PyStr (Str.strip (Str.slice_from line (i + 1)))).

Definition safe_load (text : string) : outcome pyval :=
  let lines :=
    filter (λ l, Str.strip l ≠ EmptyString) (Str.split_char "010" text) in
  if decide (lines = []) then Ok PyNone
  else match mapM yaml_line lines with
       | Some items => Ok (PyDict (list_to_map items))
       | None => Raise YAMLError
       end.

Definition markdown (text : string) : string :=
  "<p>" +:+ Str.strip text +:+ "</p>".

Definition str (v : pyval) : string :=
  match v with
  | PyNone => "None"
  | PyBool true => "True"
  | PyBool false => "False"
  | PyStr s => s
  | PyOther printed => printed
  | _ => "..."
  end.

Definition libs : Externals := {|
  yaml_safe_load := safe_load;
  mistletoe_markdown := markdown;
  py_str := str;
|}.

End Sample.

(** ** The watcher *)

Section Watcher.
Context {libs : Externals} {F : Type} {os : FileSystem F}.

(** [Handler.on_any_event], from the path of the event made relative to
    the working directory: a markdown file is rendered on its own, any
    other change starts a full pass. *)
Definition on_any_event (input_root output_root : Path)
    (event_src_relative : string) : M F unit :=
  if Str.endswith event_src_relative ".md"
  then process_markdown (Path.of_string event_src_relative)
         input_root output_root
  else process_all input_root output_root.

End Watcher.

(** ** Notions to state results *)

(** The test of [patch_referenced_files] for a reference to rewrite. *)
Definition relative_ref (m : re_match) : bool :=
  negb (Str.startswith (m_file m) "http")
  && negb (Str.startswith (m_file m) "#").

(** The path a reference is replaced by. *)
Definition asset_path (markdown_file : Path) (file : string) : string :=
  markdown_to_root markdown_file +:+ "/" +:+ file.

(** The links of a trail of crumbs: each crumb links up by as many parent
    segments as crumbs follow it. *)
Fixpoint trail_links (labels : list string) : list string :=
  match labels with
  | [] => []
  | label :: labels' =>
      a_tag (Str.join "/" (replicate (length labels') ".."%string)) label
        :: trail_links labels'
  end.

Definition trail (labels : list string) : string := nav (trail_links labels).

(** The directories from just below [root] down to [root] extended by
    [ext]. *)
Fixpoint ancestors (root ext : Path) : list Path :=
  match ext with
  | [] => []
  | x :: ext' => (root ++ [x]) :: ancestors (root ++ [x]) ext'
  end.

(** Links, each after a separator. *)
Fixpoint separated (links : list string) : string :=
  match links with
  | [] => EmptyString
  | link :: links' => " / " +:+ link +:+ separated links'
  end.

(** Computations that leave the file system alone. *)
Definition keeps_fs {F A} (m : M F A) : Prop :=
  ∀ w, w_fs (m w).2 = w_fs w.

(** What a render of [file] may do to the file system: nothing; or make
    the directory of its output file; or make it and write that file. *)
Definition render_effect {F} {os : FileSystem F}
    (file input_root output_root : Path) (fs fs' : F) : Prop :=
  fs' = fs
  ∨ ∃ rel rel_html,
      Path.relative_to file input_root = Ok rel
      ∧ Path.with_suffix rel ".html" = Ok rel_html
      ∧ let output_file := Path.join output_root rel_html in
        let fs1 := (fs_mkdir (Path.parent output_file) fs).2 in
        fs' = fs1 ∨ ∃ page, fs' = (fs_write output_file page fs1).2.

(** Computations within a render of [file] that change the file system
    no more than a render may. *)
Definition render_touches {F} {os : FileSystem F}
    (file input_root output_root : Path) {A} (m : M F A) : Prop :=
  ∀ w, render_effect file input_root output_root (w_fs w) (w_fs (m w).2).

(** ** Sample libraries with numbers

    As [Sample.libs], but a value written in digits is loaded as an
    integer, the way YAML reads it. *)
Module SampleTyped.

Fixpoint digits_value (s : string) (acc : Z) : option Z :=
  match s with
  | EmptyString => Some acc
  | String c s' =>
      let n := Z.of_nat (nat_of_ascii c) in
      if (48 <=? n) && (n <=? 57) then digits_value s' (10 * acc + (n - 48))
      else None
  end.

Definition scalar (s : string) : pyval :=
  match s with
  | EmptyString => PyStr s
  | _ => match digits_value s 0 with
         | Some z => PyInt z
         | None => PyStr s
         end
  end.

Definition yaml_line (line : string) : option (string * pyval) :=
  let i := Str.find line ":" 0 in
  if i <? 0 then None
  else Some (Str.strip (Str.slice_to line i),
             scalar (Str.strip (Str.slice_from line (i + 1)))).

Definition safe_load (text : string) : outcome pyval :=
  let lines :=
    filter (λ l, Str.strip l ≠ EmptyString) (Str.split_char "010" text) in
  if decide (lines = []) then Ok PyNone
  else match mapM yaml_line lines with
       | Some items => Ok (PyDict (list_to_map items))
       | None => Raise YAMLError
       end.

Definition libs : Externals := {|
  yaml_safe_load := safe_load;
  mistletoe_markdown := Sample.markdown;
  py_str := Sample.str;
|}.

End SampleTyped.

(** ** Sample sites *)
Module Examples.
Local Open Scope string_scope.

Definition default_template : string :=
  "<link " +:+ attr "href" "s.css" +:+ "><title>$$DOC_TITLE$$</title>"
    +:+ "$$BREADCRUMBS$$$$DOC_DATE$$$$DOC_CONTENT$$".

(** A site whose [_templates] directory holds a markdown file. *)
Definition templates_site : memfs := MemFS
  (list_to_map
     [ (["in"; "_templates"; "default.html"], default_template);
       (["in"; "_templates"; "note.md"],
        "---" +:+ nl +:+ "title: Note" +:+ nl +:+ "---" +:+ nl +:+ "hello") ])
  (list_to_set [ ["in"]; ["in"; "_templates"] ]).

(** A site whose only page has no frontmatter block. *)
Definition plain_site : memfs := MemFS
  (list_to_map
     [ (["in"; "_templates"; "default.html"], default_template);
       (["in"; "index.md"], "# Hi") ])
  (list_to_set [ ["in"]; ["in"; "_templates"] ]).

(** A site whose page asks for a template that is not there. *)
Definition fancy_page : string :=
  "---" +:+ nl +:+ "template: fancy " +:+ nl +:+ "---" +:+ nl +:+ "# Hi".

Definition fancy_site : memfs := MemFS
  (list_to_map
     [ (["in"; "_templates"; "default.html"], default_template);
       (["in"; "index.md"], fancy_page) ])
  (list_to_set [ ["in"]; ["in"; "_templates"] ]).

(** A site whose page renders. *)
Definition home_page : string :=
  "---" +:+ nl +:+ "title: Home" +:+ nl +:+ "---" +:+ nl +:+ "# Hi".

Definition home_site : memfs := MemFS
  (list_to_map
     [ (["in"; "_templates"; "default.html"], default_template);
       (["in"; "a"; "index.md"], home_page) ])
  (list_to_set [ ["in"]; ["in"; "_templates"]; ["in"; "a"] ]).

(** A site whose page has a number for title. *)
Definition year_page : string :=
  "---" +:+ nl +:+ "title: 2024" +:+ nl +:+ "---" +:+ nl +:+ "# Hi".

Definition year_site : memfs := MemFS
  (list_to_map
     [ (["in"; "_templates"; "default.html"], default_template);
       (["in"; "index.md"], year_page) ])
  (list_to_set [ ["in"]; ["in"; "_templates"] ]).

End Examples.

(** * Properties *)

(** ** Strings *)

#[local] Arguments String.append !_ _ / : simpl nomatch.

Module StrFacts.
Import Str.

Lemma app_assoc (a b c : string) : (a +:+ b) +:+ c = a +:+ (b +:+ c).
Proof. induction a as [|x a IH]; simpl; [done | by rewrite IH]. Qed.

Lemma app_empty_r (a : string) : a +:+ EmptyString = a.
Proof. induction a as [|x a IH]; simpl; [done | by rewrite IH]. Qed.

Lemma length_app (a b : string) :
  String.length (a +:+ b) = (String.length a + String.length b)%nat.
Proof. induction a as [|x a IH]; simpl; [done | by rewrite IH]. Qed.

Lemma drop_app (a b : string) : drop (String.length a) (a +:+ b) = b.
Proof. induction a as [|x a IH]; simpl; [by destruct b | done]. Qed.

Lemma take_app (a b : string) : take (String.length a) (a +:+ b) = a.
Proof. induction a as [|x a IH]; simpl; [by destruct b | by rewrite IH]. Qed.

Lemma drop_drop (n m : nat) (s : string) : drop (n + m) s = drop m (drop n s).
Proof.
  revert s; induction n as [|n IH]; intros s; simpl; [done|].
  destruct s as [|x s]; [by destruct m | apply IH].
Qed.

Lemma startswith_spec (s p : string) :
  startswith s p = true ↔ ∃ b, s = p +:+ b.
Proof.
  revert s; induction p as [|c p IH]; intros s; simpl.
  - split; [by exists s | done].
  - destruct s as [|d s].
    + split; [done | intros [b Hb]; discriminate].
    + destruct (Ascii.eqb_spec c d) as [->|Hne].
      * rewrite IH. split; intros [b Hb]; exists b; congruence.
      * split; [done | intros [b Hb]; congruence].
Qed.

Lemma startswith_app (p b : string) : startswith (p +:+ b) p = true.
Proof. apply startswith_spec; eauto. Qed.

Lemma contains_cons (sub s : string) (c : ascii) :
  contains sub s → contains sub (String c s).
Proof. intros (a & b & ->). by exists (String c a), b. Qed.

Lemma startswith_contains (sub s : string) :
  startswith s sub = true → contains sub s.
Proof. intros [b ->]%startswith_spec. by exists EmptyString, b. Qed.

(** [find_at] answers [None] exactly when there is no occurrence. *)
Lemma find_at_None (sub s : string) (k : nat) :
  find_at sub s k = None ↔ ¬ contains sub s.
Proof.
  revert k; induction s as [|c s IH]; intros k; simpl.
  - destruct (startswith EmptyString sub) eqn:E.
    + split; [done | intros []; by apply startswith_contains].
    + split; [|done]. intros _ (a & b & Hab).
      destruct a; [|done]. simpl in Hab.
      assert (startswith EmptyString sub = true); [|congruence].
      apply startswith_spec; eauto.
  - destruct (startswith (String c s) sub) eqn:E.
    + split; [done | intros []; by apply startswith_contains].
    + rewrite IH. split.
      * intros Hno (a & b & Hab). destruct a as [|x a]; simpl in Hab.
        -- assert (startswith (String c s) sub = true); [|congruence].
           apply startswith_spec; eauto.
        -- injection Hab as -> ->. apply Hno. by exists a, b.
      * intros Hno Hc. by apply Hno, contains_cons.
Qed.

(** What [find_at] finds is an occurrence. *)
Lemma find_at_Some (sub s : string) (k i : nat) :
  find_at sub s k = Some i →
  ∃ pre rest, i = (k + String.length pre)%nat ∧ s = pre +:+ sub +:+ rest.
Proof.
  revert k; induction s as [|c s IH]; intros k; simpl.
  - destruct (startswith EmptyString sub) eqn:E; [|done].
    intros [= <-]. apply startswith_spec in E as [b Hb].
    exists EmptyString, b. simpl. split; [lia | done].
  - destruct (startswith (String c s) sub) eqn:E.
    + intros [= <-]. apply startswith_spec in E as [b Hb].
      exists EmptyString, b. simpl. split; [lia | done].
    + intros (pre & rest & -> & ->)%IH.
      exists (String c pre), rest. simpl. split; [lia | done].
Qed.

(** An occurrence of the delimiter at the head of [pre +:+ "---" +:+ rest],
    with [pre] not empty, lies within [pre +:+ "--"]. *)
Lemma delimiter_head (pre rest : string) :
  pre ≠ EmptyString →
  startswith (pre +:+ "---" +:+ rest) "---" = true →
  startswith (pre +:+ "--") "---" = true.
Proof.
  destruct pre as [|c1 [|c2 [|c3 pre]]]; simpl; try done;
    repeat case_match; done.
Qed.

(** The first occurrence of the delimiter. *)
Lemma find_at_delimiter (pre rest : string) (k : nat) :
  ¬ contains "---" (pre +:+ "--") →
  find_at "---" (pre +:+ "---" +:+ rest) k = Some (k + String.length pre)%nat.
Proof.
  revert k; induction pre as [|c pre IH]; intros k Hno.
  - simpl. f_equal; lia.
  - destruct (startswith (String c pre +:+ "---" +:+ rest) "---") eqn:E.
    + apply delimiter_head in E; [|done].
      destruct Hno. by apply startswith_contains.
    + change (String c pre +:+ "---" +:+ rest)
        with (String c (pre +:+ "---" +:+ rest)) in *.
      cbn [find_at]. rewrite E, IH.
      * f_equal; simpl; lia.
      * intros Hc. by apply Hno, contains_cons.
Qed.

Lemma norm_index_inside (n i : Z) : 0 ≤ i ≤ n → norm_index n i = Z.to_nat i.
Proof. unfold norm_index. intros ?. destruct (Z.ltb_spec i 0); f_equal; lia. Qed.

(** [find] from an index inside the string. *)
Lemma find_unfold (a b sub : string) :
  find (a +:+ b) sub (len a) =
    match find_at sub b (String.length a) with
    | Some i => Z.of_nat i
    | None => -1
    end.
Proof.
  unfold find, len. rewrite length_app.
  destruct (Z.ltb_spec (Z.of_nat (String.length a + String.length b))
              (Z.of_nat (String.length a))); [lia|].
  rewrite norm_index_inside by lia. by rewrite Nat2Z.id, drop_app.
Qed.

Lemma find_0 (s sub : string) :
  find s sub 0 =
    match find_at sub s 0 with Some i => Z.of_nat i | None => -1 end.
Proof. apply (find_unfold EmptyString s sub). Qed.

Lemma slice_app (a b c : string) :
  slice (a +:+ b +:+ c) (len a) (len a + len b) = b.
Proof.
  unfold slice, len. rewrite !length_app.
  rewrite !norm_index_inside by lia.
  rewrite Nat2Z.id, drop_app.
  replace (Z.to_nat _ - _)%nat with (String.length b) by lia.
  apply take_app.
Qed.

Lemma slice_from_app (a b : string) : slice_from (a +:+ b) (len a) = b.
Proof.
  unfold slice_from, len. rewrite length_app.
  rewrite norm_index_inside by lia. by rewrite Nat2Z.id, drop_app.
Qed.

End StrFacts.

(** ** [parse_frontmatter] *)

Section FrontmatterFacts.
Context {libs : Externals}.
Import Str StrFacts.

(** A text with at most one delimiter, or with two that overlap, has no
    frontmatter. *)
Lemma parse_frontmatter_absent (markdown : string) :
  (¬ ∃ pre mid body,
       markdown = pre +:+ "---" +:+ mid +:+ "---" +:+ body) →
  parse_frontmatter markdown = Ok (PyNone, markdown).
Proof.
  intros Hno. unfold parse_frontmatter. rewrite find_0.
  destruct (find_at "---" markdown 0) as [i|] eqn:Hstart; [|done].
  apply find_at_Some in Hstart as (pre & rest & -> & ->).
  replace (Z.of_nat (0 + String.length pre) + 3) with (len (pre +:+ "---"))
    by (unfold len; rewrite length_app; simpl; lia).
  rewrite <- app_assoc, find_unfold.
  destruct (find_at "---" rest _) as [j|] eqn:Hend.
  - apply find_at_Some in Hend as (mid & body & _ & ->).
    destruct Hno. by exists pre, mid, body.
  - by rewrite andb_false_r.
Qed.

(** C6: when the text is [pre], the delimiter, [mid], the delimiter and
    [body], where the first delimiter is the first occurrence of three
    dashes and the second the next one after it, [parse_frontmatter] returns
    what the YAML loader makes of [mid], together with exactly [body]. *)
Theorem parse_frontmatter_delimited (pre mid body : string) :
  ¬ contains "---" (pre +:+ "--") →
  ¬ contains "---" (mid +:+ "--") →
  parse_frontmatter (pre +:+ "---" +:+ mid +:+ "---" +:+ body)
  = (fm ← yaml_safe_load mid; Ok (fm, body)).
Proof.
  intros Hpre Hmid. unfold parse_frontmatter.
  rewrite find_0, find_at_delimiter by done.
  replace (Z.of_nat (0 + String.length pre) + 3) with (len (pre +:+ "---"))
    by (unfold len; rewrite length_app; simpl; lia).
  rewrite <- (app_assoc pre "---"), find_unfold, find_at_delimiter by done.
  rewrite !bool_decide_true by lia. simpl andb. cbv iota.
  replace (Z.of_nat (String.length (pre +:+ "---") + String.length mid))
    with (len (pre +:+ "---") + len mid) by (unfold len; lia).
  rewrite slice_app.
  replace (len (pre +:+ "---") + len mid + 3)
    with (len (((pre +:+ "---") +:+ mid) +:+ "---"))
    by (unfold len; rewrite !length_app; simpl; lia).
  rewrite <- (app_assoc (pre +:+ "---") mid). rewrite <- (app_assoc _ "---" body).
  by rewrite slice_from_app.
Qed.

(** C7: a text in which a delimiter is missing -- no three dashes anywhere,
    or no second occurrence after the first -- has no frontmatter, and its
    body is the whole text unchanged. *)
Theorem parse_frontmatter_missing_delimiter (markdown : string) :
  (¬ contains "---" markdown
   ∨ ¬ ∃ pre mid body,
         markdown = pre +:+ "---" +:+ mid +:+ "---" +:+ body) →
  parse_frontmatter markdown = Ok (PyNone, markdown).
Proof.
  intros [Hno|Hno]; apply parse_frontmatter_absent; [|done].
  intros (pre & mid & body & ->). apply Hno. by eexists pre, _.
Qed.

End FrontmatterFacts.

(** ** Paths *)

Module PathFacts.
Import Path.
Local Open Scope nat_scope.

Lemma app_ne_self {A} (l ext : list A) : ext ≠ [] → l ++ ext ≠ l.
Proof.
  intros Hext Heq. apply (f_equal length) in Heq.
  rewrite length_app in Heq. destruct ext; [done | simpl in Heq; lia].
Qed.

Lemma name_snoc (p : Path) (x : string) :
  x ≠ "/"%string → name (p ++ [x]) = x.
Proof.
  intros Hx. unfold name. rewrite length_app. simpl.
  destruct (decide _) as [Hlen|_]; [|apply last_last].
  destruct p as [|y p]; simpl in *.
  - repeat case_match; simplify_eq; done.
  - repeat case_match; lia.
Qed.

Lemma name_snoc_below (p : Path) (x : string) :
  p ≠ [] → name (p ++ [x]) = x.
Proof.
  intros Hp. unfold name. rewrite length_app. simpl.
  destruct (decide _) as [Hlen|_]; [|apply last_last].
  destruct p; [done|]. simpl in Hlen. repeat case_match; lia.
Qed.

Lemma parent_snoc (p : Path) (x : string) :
  x ≠ "/"%string → parent (p ++ [x]) = p.
Proof.
  intros Hx. unfold parent.
  destruct (bool_decide _ && anchored _) eqn:E; [|apply removelast_last].
  apply andb_true_iff in E as [Hlen%bool_decide_eq_true Hanch].
  rewrite length_app in Hlen. destruct p; [|simpl in Hlen; lia].
  simpl in Hanch. repeat case_match; simplify_eq; done.
Qed.

Lemma with_suffix_snoc (p : Path) (x : string) :
  x ≠ "/"%string → x ≠ EmptyString →
  with_suffix (p ++ [x]) EmptyString = Ok (p ++ [stem_of x]).
Proof.
  intros Hx Hne. unfold with_suffix, suffix, stem_of. simpl.
  rewrite name_snoc by done. rewrite decide_False by done.
  rewrite removelast_last. by case_decide; rewrite StrFacts.app_empty_r.
Qed.

Lemma anchor_le (p : Path) : anchor p ≤ length p.
Proof. unfold anchor. destruct p; simpl; repeat case_match; simpl; lia. Qed.

Lemma anchored_take (p : Path) (m : nat) :
  1 ≤ m → anchored (take m p) = anchored p.
Proof. destruct m; [lia|]. by destruct p. Qed.

Lemma removelast_take {A} (l : list A) (m : nat) :
  m ≤ length l → removelast (take m l) = take (m - 1) l.
Proof.
  revert l; induction m as [|m IH]; intros l Hm; [by destruct l|].
  destruct l as [|x l]; simpl in Hm; [lia|].
  destruct m as [|m]; [by destruct l|].
  specialize (IH l ltac:(lia)).
  destruct l as [|y l]; simpl in Hm; [lia|].
  simpl in *. rewrite Nat.sub_0_r in IH. by rewrite IH.
Qed.

(** The [k]-th parent keeps the first parts of the path, and always its
    root. *)
Lemma iter_parent (k : nat) (p : Path) :
  Nat.iter k parent p = take (anchor p `max` (length p - k)) p.
Proof.
  induction k as [|k IH].
  - simpl. rewrite Nat.sub_0_r, Nat.max_r by apply anchor_le.
    by rewrite firstn_all.
  - simpl. rewrite IH. pose proof (anchor_le p) as Ha.
    set (m := anchor p `max` (length p - k)).
    assert (m ≤ length p) as Hm by lia.
    unfold parent. rewrite length_take, Nat.min_l by done.
    unfold anchor in *. destruct (anchored p) eqn:Hp.
    + rewrite anchored_take, Hp by lia.
      destruct (bool_decide_reflect (m = 1)) as [Hm1|Hm1]; simpl.
      * f_equal. lia.
      * rewrite removelast_take by done. f_equal. lia.
    + replace (anchored (take m p)) with false.
      * rewrite andb_false_r, removelast_take by done. f_equal. lia.
      * destruct m; [by destruct p | by rewrite anchored_take, Hp by lia].
Qed.

Lemma is_relative_to_spec (p other : Path) :
  is_relative_to p other = true ↔
  ∃ n, anchor p ≤ n ≤ length p ∧ other = take n p.
Proof.
  unfold is_relative_to, relative_to, anchor. split.
  - destruct other as [|x other].
    + destruct (anchored p); [done|]. intros _. exists 0.
      split; [simpl; lia | done].
    + destruct (decide _) as [Heq|]; [|done]. intros _.
      exists (length (x :: other)). split; [|done].
      apply (f_equal length) in Heq. rewrite length_take in Heq.
      destruct (anchored p); cbn [length] in *; lia.
  - intros (n & Hn & ->). destruct (take n p) as [|x q] eqn:Hq.
    + destruct (anchored p) eqn:Hp; [|done].
      destruct n; [lia|]. by destruct p.
    + rewrite <- Hq, length_take, Nat.min_l by lia. by rewrite decide_True.
Qed.

(** The parents of a path are the paths it is relative to. *)
Lemma is_relative_to_iter (p other : Path) :
  is_relative_to p other = true ↔ ∃ k, Nat.iter k parent p = other.
Proof.
  rewrite is_relative_to_spec. pose proof (anchor_le p). split.
  - intros (n & Hn & ->). exists (length p - n).
    rewrite iter_parent. f_equal. lia.
  - intros [k <-]. rewrite iter_parent. eexists. split; [|done]. lia.
Qed.

End PathFacts.

(** ** The walk to the root *)

Module WalkFacts.
Import Path PathFacts.
Local Open Scope nat_scope.

Lemma walk_up_mono (fuel fuel' : nat) (d root : Path) (acc r : list Path) :
  walk_up fuel d root acc = Some r → fuel ≤ fuel' →
  walk_up fuel' d root acc = Some r.
Proof.
  revert fuel' d acc; induction fuel as [|fuel IH]; intros fuel' d acc.
  - destruct fuel'; simpl; by case_decide.
  - destruct fuel' as [|fuel']; simpl; case_decide; try done; try lia.
    intros Hw Hle. apply IH; [done | lia].
Qed.

(** A walk that ends has met the root among the parents. *)
Lemma walk_up_Some_iter (fuel : nat) (d root : Path) (acc r : list Path) :
  walk_up fuel d root acc = Some r → ∃ k, Nat.iter k parent d = root.
Proof.
  revert d acc; induction fuel as [|fuel IH]; intros d acc; simpl;
    case_decide as Hd; try done; try (intros _; by exists 0).
  intros [k Hk]%IH. exists (S k). by rewrite Nat.iter_succ_r.
Qed.

(** A walk ends as soon as the fuel covers the distance to the root. *)
Lemma walk_up_reach (k fuel : nat) (d root : Path) (acc : list Path) :
  Nat.iter k parent d = root → k ≤ fuel →
  is_Some (walk_up fuel d root acc).
Proof.
  revert fuel d acc; induction k as [|k IH]; intros fuel d acc Hk Hle.
  - simpl in Hk. destruct fuel; simpl; by rewrite decide_True.
  - destruct fuel as [|fuel]; [lia|]. simpl. case_decide; [done|].
    apply IH; [by rewrite <- Nat.iter_succ_r | lia].
Qed.

(** The walk ends exactly from the directories at or below the root. *)
Lemma walk_up_terminates (d root : Path) (acc : list Path) :
  (∃ fuel r, walk_up fuel d root acc = Some r)
  ↔ is_relative_to d root = true.
Proof.
  rewrite is_relative_to_iter. split.
  - intros (fuel & r & Hw). by eapply walk_up_Some_iter.
  - intros [k Hk]. exists k.
    by destruct (walk_up_reach k k d root acc Hk) as [r Hr]; eauto.
Qed.

(** No more steps than the directory has parts are ever needed. *)
Lemma walk_up_bound (fuel : nat) (d root : Path) (acc r : list Path) :
  walk_up fuel d root acc = Some r →
  walk_up (length d) d root acc = Some r.
Proof.
  intros Hw. pose proof Hw as [k Hk]%walk_up_Some_iter.
  assert (is_relative_to d root = true) as (n & Hn & Hroot)%is_relative_to_spec
    by (apply is_relative_to_iter; eauto).
  destruct (walk_up_reach (length d - n) (length d) d root acc) as [r' Hr'].
  { rewrite iter_parent, Hroot. f_equal. lia. }
  { lia. }
  pose proof (walk_up_mono _ (fuel `max` length d) _ _ _ _ Hw) as H1.
  pose proof (walk_up_mono _ (fuel `max` length d) _ _ _ _ Hr') as H2.
  rewrite H1 in H2 by lia. by rewrite Hr', H2 by lia.
Qed.

Lemma walk_up_diverges (d root : Path) :
  is_relative_to d root = false → ∀ fuel acc, walk_up fuel d root acc = None.
Proof.
  intros Hrel fuel acc. destruct (walk_up fuel d root acc) eqn:Hw; [|done].
  assert (is_relative_to d root = true); [|congruence].
  apply (walk_up_terminates d root acc); eauto.
Qed.

(** The walk collects something unless it starts at the root. *)
Lemma walk_up_nil (fuel : nat) (d root : Path) (acc r : list Path) :
  walk_up fuel d root acc = Some r → length r = length acc → d = root.
Proof.
  assert (∀ fuel d acc r,
    walk_up fuel d root acc = Some r → length acc ≤ length r) as Hgrow.
  { clear. induction fuel as [|fuel IH]; intros d acc r; simpl;
      case_decide; try done; try (intros [= ->]; lia).
    intros Hlen%IH. rewrite length_app in Hlen. simpl in Hlen. lia. }
  destruct fuel; simpl; case_decide; try done.
  intros Hlen%Hgrow. rewrite length_app in Hlen. simpl in Hlen. lia.
Qed.

Lemma parent_length (p : Path) : length (parent p) ≤ length p.
Proof.
  unfold parent. case_match; [done|].
  destruct p as [|x p] using rev_ind; [done|].
  rewrite removelast_last, length_app. lia.
Qed.

Lemma length_removelast_snoc {A} (l : list A) (x : A) :
  l ≠ [] → length (removelast l ++ [x]) = length l.
Proof.
  intros Hne. destruct l as [|y l _] using rev_ind; [done|].
  by rewrite removelast_last, !length_app.
Qed.

Lemma with_suffix_length (p q : Path) (suf : string) :
  with_suffix p suf = Ok q → length q = length p.
Proof.
  unfold with_suffix. repeat case_match; try done; intros [= <-];
    apply length_removelast_snoc; by intros ->.
Qed.

Lemma start_dir_length (file d : Path) :
  start_dir file = Ok d → length d ≤ length file.
Proof.
  unfold start_dir.
  destruct (with_suffix file EmptyString) as [d0| |] eqn:Hd0; try done.
  apply with_suffix_length in Hd0. simpl. intros [= <-].
  case_decide; [|lia]. pose proof (parent_length d0). lia.
Qed.

Lemma start_dir_not_Diverge (file : Path) : start_dir file ≠ Diverge.
Proof. unfold start_dir, with_suffix. by repeat case_match. Qed.

(** Whatever the bounded function returns, the function returns. *)
Lemma gen_breadcrumbs_html_fuel_enough (fuel : nat) (file root : Path)
    (o : outcome string) :
  gen_breadcrumbs_html_fuel fuel file root = Some o →
  gen_breadcrumbs_html file root = o.
Proof.
  unfold gen_breadcrumbs_html, gen_breadcrumbs_html_fuel, collect_breadcrumbs.
  destruct (start_dir file) as [d| |] eqn:Hd; try (by intros [= <-]).
  destruct (walk_up fuel d root []) as [r|] eqn:Hw; [|done]. simpl.
  intros [= <-]. apply walk_up_bound in Hw.
  apply start_dir_length in Hd.
  by rewrite (walk_up_mono _ (length file) _ _ _ _ Hw Hd).
Qed.

(** The function diverges exactly when no fuel is enough. *)
Lemma gen_breadcrumbs_html_Diverge (file root : Path) :
  gen_breadcrumbs_html file root = Diverge
  ↔ ∀ fuel, gen_breadcrumbs_html_fuel fuel file root = None.
Proof.
  split.
  - intros Hdiv fuel.
    destruct (gen_breadcrumbs_html_fuel fuel file root) as [o|] eqn:Ho; [|done].
    pose proof Ho as Ho'. apply gen_breadcrumbs_html_fuel_enough in Ho.
    rewrite Hdiv in Ho. subst o. exfalso. revert Ho'.
    unfold gen_breadcrumbs_html_fuel.
    pose proof (start_dir_not_Diverge file).
    destruct (start_dir file); try done.
    by destruct (collect_breadcrumbs _ _ _).
  - intros Hno. unfold gen_breadcrumbs_html. by rewrite Hno.
Qed.

End WalkFacts.

(** ** [gen_breadcrumbs_html] *)

Section BreadcrumbFacts.
Import Path PathFacts WalkFacts.
Local Open Scope nat_scope.
Local Open Scope string_scope.

Lemma start_dir_snoc (p : Path) (x : string) :
  x ≠ "/" → x ≠ EmptyString → stem_of x ≠ "/" →
  start_dir (app p [x])
  = Ok (if decide (stem_of x = "index") then p else app p [stem_of x]).
Proof.
  intros Hx Hne Hstem. unfold start_dir.
  rewrite with_suffix_snoc by done. simpl.
  rewrite name_snoc by done. case_decide; [|done].
  by rewrite parent_snoc.
Qed.

Lemma join_str_part (p : Path) (s : string) :
  of_string s = [s] → s ≠ "/" → p /: s = app p [s].
Proof.
  intros Hs Hne. unfold join_str, join. rewrite Hs. simpl.
  repeat case_match; simplify_eq; done.
Qed.

(** C9: a root-level index page, and any document for which a single crumb
    is collected, starts its walk at the input root itself and gets the
    empty string for breadcrumbs. *)
Theorem root_page_no_breadcrumbs (file root : Path) :
  (file = root /: "index.md"
   ∨ ∃ fuel d crumbs,
       start_dir file = Ok d
       ∧ collect_breadcrumbs fuel d root = Some crumbs
       ∧ length crumbs = 1) →
  start_dir file = Ok root
  ∧ gen_breadcrumbs_html file root = Ok EmptyString.
Proof.
  intros Hfile.
  assert (start_dir file = Ok root) as Hstart.
  { destruct Hfile as [->|(fuel & d & crumbs & Hd & Hc & Hlen)].
    - rewrite join_str_part by done. by rewrite start_dir_snoc.
    - unfold collect_breadcrumbs in Hc.
      destruct (walk_up fuel d root []) as [r|] eqn:Hw; [|done].
      simpl in Hc. injection Hc as <-. rewrite length_app in Hlen.
      apply walk_up_nil in Hw; [by subst | simpl in *; lia]. }
  split; [done|].
  apply (gen_breadcrumbs_html_fuel_enough 0).
  unfold gen_breadcrumbs_html_fuel, collect_breadcrumbs. rewrite Hstart.
  simpl. by rewrite decide_True.
Qed.

(** C1, as the code has it: for the page [a/b/page.md] below any input
    root the function collects four crumbs, named root, a, b and page --
    the page itself, without its suffix, is the last crumb -- and renders
    them root first, each as a link with its name for text, joined by the
    separator inside the navigation container. The targets of the four
    links are not part of the statement, beyond holding no double quote,
    so that each link is one well-formed tag. *)
Theorem page_breadcrumbs (root : Path) :
  let file := root /: "a" /: "b" /: "page.md" in
  let page := root /: "a" /: "b" /: "page" in
  let crumbs := [page; root /: "a" /: "b"; root /: "a"; root] in
  start_dir file = Ok page
  ∧ collect_breadcrumbs 3 page root = Some crumbs
  ∧ crumb_labels crumbs = ["root"; "a"; "b"; "page"]
  ∧ ∃ to_root to_a to_b to_page,
      Forall (λ href, Str.has_char "034" href = false)
        [to_root; to_a; to_b; to_page]
      ∧ gen_breadcrumbs_html file root
        = Ok (nav [a_tag to_root "root"; a_tag to_a "a";
                   a_tag to_b "b"; a_tag to_page "page"]).
Proof.
  intros file page crumbs. subst file page crumbs.
  rewrite !join_str_part by done.
  set (a := app root ["a"]). set (b := app a ["b"]).
  set (page := app b ["page"]).
  assert (start_dir (app b ["page.md"]) = Ok page) as Hstart.
  { rewrite start_dir_snoc by done. by rewrite decide_False. }
  assert (collect_breadcrumbs 3 page root = Some [page; b; a; root])
    as Hcollect.
  { unfold collect_breadcrumbs, page, b, a. simpl.
    rewrite decide_False
      by (rewrite <- !(assoc_L app); by apply app_ne_self).
    rewrite parent_snoc by done.
    rewrite decide_False
      by (rewrite <- !(assoc_L app); by apply app_ne_self).
    rewrite parent_snoc by done.
    rewrite decide_False by (by apply app_ne_self).
    rewrite parent_snoc by done. by rewrite decide_True. }
  assert (name page = "page" ∧ name b = "b" ∧ name a = "a")
    as (Hn3 & Hn2 & Hn1) by (by unfold page, b, a; rewrite !name_snoc).
  split; [done|]. split; [done|]. split.
  - unfold crumb_labels. simpl. unfold crumb_name. simpl.
    by rewrite Hn1, Hn2, Hn3.
  - exists (crumb_href 4 0), (crumb_href 4 1), (crumb_href 4 2),
      (crumb_href 4 3).
    split; [by repeat constructor|].
    apply (gen_breadcrumbs_html_fuel_enough 3).
    unfold gen_breadcrumbs_html_fuel. rewrite Hstart, Hcollect. simpl.
    unfold breadcrumbs_html. simpl. unfold render_crumb, crumb_name. simpl.
    by rewrite Hn1, Hn2, Hn3.
Qed.

(** An index page is left out of its own trail: for [a/b/index.md] the
    crumbs are root, a and b. *)
Lemma index_page_breadcrumbs (root : Path) :
  let file := root /: "a" /: "b" /: "index.md" in
  start_dir file = Ok (root /: "a" /: "b")
  ∧ gen_breadcrumbs_html file root
    = Ok (nav [a_tag "../.." "root"; a_tag ".." "a"; a_tag EmptyString "b"]).
Proof.
  intros file. subst file. rewrite !join_str_part by done.
  set (a := app root ["a"]). set (b := app a ["b"]).
  assert (start_dir (app b ["index.md"]) = Ok b) as Hstart
    by (by rewrite start_dir_snoc).
  split; [done|].
  apply (gen_breadcrumbs_html_fuel_enough 2).
  unfold gen_breadcrumbs_html_fuel, collect_breadcrumbs.
  rewrite Hstart. unfold b, a. simpl.
  rewrite decide_False
    by (rewrite <- !(assoc_L app); by apply app_ne_self).
  rewrite parent_snoc by done.
  rewrite decide_False by (by apply app_ne_self).
  rewrite parent_snoc by done. rewrite decide_True by done. simpl.
  unfold breadcrumbs_html. simpl. unfold render_crumb, crumb_name. simpl.
  by rewrite !name_snoc.
Qed.

(** The claim of three crumbs fails on the code: for [/a/b/page.md] under
    the root [/] no run collects crumbs named root, a, b; the page is a
    crumb of its own. *)
Lemma page_breadcrumbs_not_three :
  ¬ (∃ fuel d crumbs,
       start_dir ["/"; "a"; "b"; "page.md"] = Ok d
       ∧ collect_breadcrumbs fuel d ["/"] = Some crumbs
       ∧ crumb_labels crumbs = ["root"; "a"; "b"])
  ∧ gen_breadcrumbs_html ["/"; "a"; "b"; "page.md"] ["/"]
    = Ok (nav [a_tag "../../.." "root"; a_tag "../.." "a";
               a_tag ".." "b"; a_tag EmptyString "page"]).
Proof.
  split; [|by vm_compute].
  intros (fuel & d & crumbs & Hd & Hc & Hl).
  vm_compute in Hd. injection Hd as <-.
  unfold collect_breadcrumbs in Hc.
  destruct (walk_up fuel _ _ _) as [r|] eqn:Hw; [|done].
  apply walk_up_bound in Hw. vm_compute in Hw.
  injection Hw as <-. injection Hc as <-. by vm_compute in Hl.
Qed.

Lemma has_char_take (c : ascii) (n : nat) (s : string) :
  Str.has_char c (Str.take n s) = true → Str.has_char c s = true.
Proof.
  revert s; induction n as [|n IH]; intros [|d s]; simpl; try done.
  intros [->| Hc%IH]%orb_true_iff; [done|]. rewrite Hc. apply orb_true_r.
Qed.

Lemma stem_of_no_separator (x : string) :
  Str.has_char "/" x = false → stem_of x ≠ "/".
Proof.
  intros Hx Hstem. assert (Str.has_char "/" x = true); [|congruence].
  unfold stem_of in Hstem. case_decide; [by subst|].
  apply (has_char_take _ (Str.norm_index (Str.len x)
                            (- Str.len (suffix_of x)))).
  unfold Str.slice_to in Hstem. by rewrite Hstem.
Qed.

Lemma is_relative_to_app (root ext : Path) :
  (root = [] → anchored ext = false) →
  is_relative_to (app root ext) root = true.
Proof.
  intros Hext. unfold is_relative_to, relative_to.
  destruct root as [|x root]; [by simpl; rewrite Hext|].
  by rewrite take_app_length, decide_True.
Qed.

Lemma is_relative_to_inv (p root : Path) :
  is_relative_to p root = true →
  ∃ ext, p = app root ext ∧ (root = [] → anchored ext = false).
Proof.
  unfold is_relative_to, relative_to. destruct root as [|x root].
  - destruct (anchored p) eqn:Hp; [done|]. by exists p.
  - case_decide as Heq; [|done]. intros _. exists (drop (length (x :: root)) p).
    split; [|done]. by rewrite <- Heq at 1; rewrite take_drop.
Qed.

(** The walk from a file strictly below the root starts at or below the
    root. *)
Lemma start_dir_below (file root d : Path) :
  start_dir file = Ok d →
  is_relative_to file root = true → file ≠ root →
  Str.has_char "/" (name file) = false →
  is_relative_to d root = true.
Proof.
  intros Hd (ext & -> & Hanch)%is_relative_to_inv Hne Hname.
  destruct ext as [|x ext _] using rev_ind.
  { by rewrite app_nil_r in Hne. }
  rewrite (assoc_L app) in Hd, Hname.
  assert (x ≠ "/") as Hx.
  { intros ->. destruct (decide (app root ext = [])) as [Hnil|Hnil].
    - apply app_eq_nil in Hnil as [-> ->]. by specialize (Hanch eq_refl).
    - by rewrite name_snoc_below in Hname. }
  rewrite name_snoc in Hname by done.
  assert (x ≠ EmptyString) as Hx'.
  { intros ->. unfold start_dir, with_suffix in Hd. simpl in Hd.
    by rewrite name_snoc in Hd. }
  pose proof (stem_of_no_separator x Hname) as Hstem.
  rewrite start_dir_snoc in Hd by done. injection Hd as <-.
  assert (root = [] → anchored ext = false) as Hext.
  { intros Hr. specialize (Hanch Hr). by destruct ext. }
  case_decide; [by apply is_relative_to_app|].
  rewrite <- (assoc_L app). apply is_relative_to_app.
  intros Hr. specialize (Hext Hr). destruct ext; simpl in *; [|done].
  repeat case_match; simplify_eq; done.
Qed.

(** C10, as the code has it: the walk ends exactly when the directory it
    starts from -- the path without its suffix, or the parent of that for
    an index page -- is the input root or lies below it. Otherwise no
    number of steps ends it and the function diverges. The walk for a file
    strictly below the root, whose name holds no separator, starts at or
    below the root. *)
Theorem walk_terminates_iff_start_below (file root d : Path) :
  start_dir file = Ok d →
  ((∃ fuel crumbs, collect_breadcrumbs fuel d root = Some crumbs)
   ↔ is_relative_to d root = true)
  ∧ (is_relative_to d root = false →
     gen_breadcrumbs_html file root = Diverge
     ∧ ∀ fuel, gen_breadcrumbs_html_fuel fuel file root = None)
  ∧ (is_relative_to file root = true → file ≠ root →
     Str.has_char "/" (name file) = false →
     is_relative_to d root = true).
Proof.
  intros Hd. split; [|split].
  - rewrite <- (walk_up_terminates d root []). unfold collect_breadcrumbs.
    split.
    + intros (fuel & crumbs & Hc).
      destruct (walk_up fuel d root []) eqn:Hw; [eauto | done].
    + intros (fuel & r & Hw). exists fuel. rewrite Hw. simpl. eauto.
  - intros Hrel.
    assert (∀ fuel, gen_breadcrumbs_html_fuel fuel file root = None) as Hno.
    { intros fuel. unfold gen_breadcrumbs_html_fuel, collect_breadcrumbs.
      by rewrite Hd, walk_up_diverges. }
    split; [by apply gen_breadcrumbs_html_Diverge | done].
  - by apply start_dir_below.
Qed.

(** The claim fails on the code in both directions: [a.md] is not below
    the root [a], yet its walk ends at once; and the path [index] is
    (at) the root [index], yet its walk never ends. *)
Lemma walk_precondition_counterexample :
  (is_relative_to ["a.md"] ["a"] = false
   ∧ gen_breadcrumbs_html_fuel 0 ["a.md"] ["a"] = Some (Ok EmptyString))
  ∧ (is_relative_to ["index"] ["index"] = true
     ∧ ∀ fuel, gen_breadcrumbs_html_fuel fuel ["index"] ["index"] = None).
Proof.
  split; [by vm_compute|]. split; [by vm_compute|].
  by apply gen_breadcrumbs_html_Diverge; vm_compute.
Qed.

End BreadcrumbFacts.

(** ** [patch_referenced_files] *)

Section PatchFacts.
Local Open Scope nat_scope.
Local Open Scope string_scope.

(** The prefix holds one parent segment for each part of the document's
    path except the last two, whatever the input root is. *)
Lemma markdown_to_root_segments (markdown_file : Path) :
  markdown_to_root markdown_file
  = Str.times "../" (length markdown_file - 2) +:+ "_templates".
Proof.
  unfold markdown_to_root, tuple_slice_to, Str.norm_index. simpl.
  rewrite length_take. do 2 f_equal. lia.
Qed.

(** A single relative reference is rewritten in place; absolute links and
    fragments stay as they are. *)
Example patch_single_reference :
  patch_referenced_files
    ("<a " +:+ attr "href" "https://x.com" +:+ "><a " +:+ attr "href" "#frag"
       +:+ "><img " +:+ attr "src" "style.css" +:+ ">")
    ["in"; "_templates"; "default.html"] ["in"; "a"; "b"; "page.md"]
  = ("<a " +:+ attr "href" "https://x.com" +:+ "><a " +:+ attr "href" "#frag"
       +:+ "><img " +:+ attr "src" "../../_templates/style.css" +:+ ">",
     [" - asset ../../_templates/style.css"]).
Proof. by vm_compute. Qed.

(** C2 fails on the code: with two relative references in the template
    the second replacement is made at the span the match had in the text
    before the first replacement, so it lands fourteen characters early:
    it overwrites the end of the first tag and leaves the second reference
    as it was. *)
Theorem patch_second_reference_misplaced :
  let template :=
    "<link " +:+ attr "href" "a.css" +:+ "><script " +:+ attr "src" "b.js"
      +:+ ">" in
  let patched :=
    (patch_referenced_files template
       ["in"; "_templates"; "default.html"] ["in"; "a"; "page.md"]).1 in
  finditer template
  = [ {| m_attr := "href"; m_file := "a.css"; m_start2 := 12; m_end2 := 17 |};
      {| m_attr := "src"; m_file := "b.js"; m_start2 := 32; m_end2 := 36 |} ]
  ∧ patched
    = "<link " +:+ attr "href" "../_templates/a.css"
        +:+ "../_templates/b.jsript " +:+ attr "src" "b.js" +:+ ">"
  ∧ patched
    ≠ "<link " +:+ attr "href" "../_templates/a.css" +:+ "><script "
        +:+ attr "src" "../_templates/b.js" +:+ ">".
Proof. by vm_compute. Qed.

(** C4 fails on the code: the segments are counted on the whole path of
    the document, input root included, less two. With a root of two parts
    a page directly below the root gets one segment where none is due;
    with the root [Path('.')], of no parts, a page one directory down
    gets none where one is due. *)
Theorem asset_depth_counts_root_parts :
  (∀ root rel : Path,
     markdown_to_root (app root rel)
     = Str.times "../" (length root + length rel - 2) +:+ "_templates")
  ∧ (Path.relative_to ["my"; "in"; "page.md"] ["my"; "in"] = Ok ["page.md"]
     ∧ patch_referenced_files ("<link " +:+ attr "href" "s.css" +:+ ">")
         ["my"; "in"; "_templates"; "default.html"] ["my"; "in"; "page.md"]
       = ("<link " +:+ attr "href" "../_templates/s.css" +:+ ">",
          [" - asset ../_templates/s.css"]))
  ∧ (Path.relative_to ["a"; "page.md"] [] = Ok ["a"; "page.md"]
     ∧ patch_referenced_files ("<link " +:+ attr "href" "s.css" +:+ ">")
         ["_templates"; "default.html"] ["a"; "page.md"]
       = ("<link " +:+ attr "href" "_templates/s.css" +:+ ">",
          [" - asset _templates/s.css"])).
Proof.
  split; [|by vm_compute].
  intros root rel. by rewrite markdown_to_root_segments, length_app.
Qed.

End PatchFacts.

(** ** [process_markdown] *)

Section SiteFacts.
Context {libs : Externals} {F : Type} {os : FileSystem F}.

Ltac run_render :=
  unfold process_markdown, mbind, M_bind, mret, M_ret, note_render, ask,
    raise, lift, print; simpl.

(** C8: when the template the document resolves to does not exist, the
    render stops at the assertion, with its message. The file system is
    the one the render started from: nothing was substituted, no directory
    made and no file written. *)
Theorem missing_template_aborts (file input_root output_root rel rel_html : Path)
    (w : world F) (text body name : string) (frontmatter : pyval) :
  let template_file := input_root /: "_templates" /: (name +:+ ".html") in
  let output_file := Path.join output_root rel_html in
  fs_read (w_fs w) file = Ok text →
  Path.relative_to file input_root = Ok rel →
  Path.with_suffix rel ".html" = Ok rel_html →
  parse_frontmatter text = Ok (frontmatter, body) →
  resolve_template_name frontmatter = Ok name →
  fs_exists (w_fs w) template_file = false →
  process_markdown file input_root output_root w
  = (Raise (AssertionError ("template " +:+ Path.to_str template_file
                              +:+ " does not exist")),
     after_first_line file output_file w)
  ∧ w_fs (after_first_line file output_file w) = w_fs w.
Proof.
  intros template_file output_file Hread Hrel Hhtml Hparse Hname Hexists.
  split; [|done]. run_render.
  rewrite Hread, Hrel. simpl. rewrite Hhtml. simpl. rewrite Hparse. simpl.
  rewrite Hname. simpl. fold template_file. by rewrite Hexists.
Qed.

(** C3 fails on the code: a document without a frontmatter block gets
    [None] for frontmatter, and asking [None] for the template name raises
    [AttributeError]; no default name is used and the render fails. *)
Theorem no_frontmatter_render_fails (file input_root output_root rel rel_html : Path)
    (w : world F) (text : string) :
  fs_read (w_fs w) file = Ok text →
  Path.relative_to file input_root = Ok rel →
  Path.with_suffix rel ".html" = Ok rel_html →
  (¬ ∃ pre mid body, text = pre +:+ "---" +:+ mid +:+ "---" +:+ body) →
  resolve_template_name PyNone = Raise AttributeError
  ∧ process_markdown file input_root output_root w
    = (Raise AttributeError,
       after_first_line file (Path.join output_root rel_html) w).
Proof.
  intros Hread Hrel Hhtml Hno. split; [done|]. run_render.
  rewrite Hread, Hrel. simpl. rewrite Hhtml. simpl.
  by rewrite parse_frontmatter_absent.
Qed.

(** With a mapping for frontmatter the name is the trimmed [template]
    entry, and the default name when there is none. *)
Lemma resolve_template_name_mapping (d : gmap string pyval) :
  resolve_template_name (PyDict d)
  = match d !! "template"%string with
    | None => Ok "default"%string
    | Some (PyStr s) => Ok (Str.strip s)
    | Some _ => Raise AttributeError
    end.
Proof.
  unfold resolve_template_name. simpl.
  destruct (d !! "template"%string) as [[]|]; done.
Qed.

(** ** [process_all] *)

Lemma keeps_ret {A} (a : A) : keeps_rendered (mret a : M F A).
Proof. by intros w. Qed.

Lemma keeps_bind {A B} (m : M F A) (f : A → M F B) :
  keeps_rendered m → (∀ a, keeps_rendered (f a)) → keeps_rendered (m ≫= f).
Proof.
  intros Hm Hf w. unfold mbind, M_bind. specialize (Hm w).
  destruct (m w) as [[a|e|] w']; simpl in *; [|done..].
  by rewrite Hf.
Qed.

Lemma keeps_lift {A} (o : outcome A) : keeps_rendered (lift o : M F A).
Proof. by intros w. Qed.

Lemma keeps_ask {A} (q : F → A) : keeps_rendered (ask q).
Proof. by intros w. Qed.

Lemma keeps_on_fs (op : F → outcome unit * F) : keeps_rendered (on_fs op).
Proof. intros w. unfold on_fs. by destruct (op (w_fs w)). Qed.

Lemma keeps_print (line : string) : keeps_rendered (print line : M F unit).
Proof. by intros w. Qed.

Lemma keeps_for_each {A} (l : list A) (body : A → M F unit) :
  (∀ x, keeps_rendered (body x)) → keeps_rendered (for_each l body).
Proof.
  intros Hbody. induction l as [|x l IH]; simpl.
  - apply keeps_ret.
  - apply keeps_bind; [apply Hbody | by intros _].
Qed.

Ltac keeps :=
  repeat first
    [ apply keeps_ret | apply keeps_lift | apply keeps_ask
    | apply keeps_on_fs | apply keeps_print
    | apply keeps_for_each; intros
    | apply keeps_bind; [|intros]
    | by intros ?
    | case_match ].

(** A render adds its file to the record, whatever its outcome. *)
Lemma process_markdown_rendered (file input_root output_root : Path)
    (w : world F) :
  w_rendered (process_markdown file input_root output_root w).2
  = w_rendered w ++ [file].
Proof.
  unfold process_markdown.
  match goal with
  | |- context [note_render file ≫= ?rest] =>
      assert (keeps_rendered (rest ())) as Hrest
  end.
  { unfold raise, walk_dir. keeps. }
  unfold mbind at 1. unfold M_bind at 1. simpl. by rewrite Hrest.
Qed.

(** The loop over the pages records the files it has reached, in order,
    and all of them when it ends normally. *)
Lemma for_each_rendered (files : list Path) (input_root output_root : Path)
    (w : world F) :
  let run :=
    for_each files (λ file, process_markdown file input_root output_root) w in
  ∃ k, w_rendered run.2 = w_rendered w ++ take k files
       ∧ (run.1 = Ok () → k = length files).
Proof.
  revert w; induction files as [|file files IH]; intros w; simpl.
  - exists 0%nat. by rewrite app_nil_r.
  - unfold mbind, M_bind.
    pose proof (process_markdown_rendered file input_root output_root w) as Hw.
    destruct (process_markdown file input_root output_root w)
      as [[[]|e|] w1]; simpl in *.
    + destruct (IH w1) as (k & Hk & Hall). exists (S k). simpl.
      rewrite Hk, Hw, <- (assoc_L app). split; [done|].
      intros Hok. by rewrite Hall.
    + exists 1%nat. simpl. by rewrite take_0.
    + exists 1%nat. simpl. by rewrite take_0.
Qed.

Lemma copy_direct_rendered (input_root output_root : Path) :
  keeps_rendered (copy_direct input_root output_root).
Proof. unfold copy_direct, walk_dir. keeps. Qed.

Lemma copy_template_assets_rendered (input_root output_root : Path) :
  keeps_rendered (copy_template_assets input_root output_root).
Proof. unfold copy_template_assets, walk_dir. keeps. Qed.

(** What the walk yields: every listed file name with one of the
    suffixes, below the directory that lists it. No directory is left
    out. *)
Lemma elem_of_walk_dir_list (fs : F) (dir : Path) (extensions : gset string)
    (p : Path) :
  p ∈ walk_dir_list fs dir extensions ↔
  ∃ root dirs files file,
    (root, dirs, files) ∈ fs_walk fs dir ∧ file ∈ files
    ∧ Path.suffix (Path.of_string file) ∈ extensions
    ∧ p = root /: file.
Proof.
  unfold walk_dir_list. rewrite list_elem_of_bind. split.
  - intros ([[root dirs] files] & Hp & Hwalk).
    apply list_elem_of_bind in Hp as (file & Hp & Hfile).
    case_decide; [|by apply elem_of_nil in Hp].
    apply list_elem_of_singleton in Hp as ->. by exists root, dirs, files, file.
  - intros (root & dirs & files & file & Hwalk & Hfile & Hsuf & ->).
    exists (root, dirs, files). split; [|done].
    apply list_elem_of_bind. exists file. split; [|done].
    rewrite decide_True by done. by apply list_elem_of_singleton.
Qed.

(** C5, as the code has it: a pass that ends normally has called the page
    renderer once for each markdown file the walk of the input root
    lists, in the order of the walk, after the two copying loops. The
    list is that of all files with the suffix [.md]: those inside the
    [_templates] directory are rendered as pages like any other. *)
Theorem process_all_renders_every_markdown_file
    (input_root output_root : Path) (w w' : world F) :
  process_all input_root output_root w = (Ok (), w') →
  ∃ w1,
    (copy_direct input_root output_root;;
     copy_template_assets input_root output_root) w = (Ok (), w1)
    ∧ w_rendered w' =
        w_rendered w ++ walk_dir_list (w_fs w1) input_root {[ ".md"%string ]}
    ∧ ∀ root dirs files file,
        (root, dirs, files) ∈ fs_walk (w_fs w1) input_root →
        file ∈ files → Path.suffix (Path.of_string file) = ".md"%string →
        root /: file ∈ w_rendered w'.
Proof.
  unfold process_all. intros Hrun.
  pose proof (copy_direct_rendered input_root output_root w) as Hc1.
  unfold mbind, M_bind in *.
  destruct (copy_direct input_root output_root w) as [[[]|e|] w0];
    simpl in *; try done.
  pose proof (copy_template_assets_rendered input_root output_root w0) as Hc2.
  destruct (copy_template_assets input_root output_root w0) as [[[]|e|] w1];
    simpl in *; try done.
  exists w1. split; [done|].
  unfold render_pages, walk_dir, ask, mbind, M_bind in Hrun. simpl in Hrun.
  destruct (for_each_rendered
              (walk_dir_list (w_fs w1) input_root {[".md"%string]})
              input_root output_root w1) as (k & Hk & Hall).
  rewrite Hrun in Hk, Hall. simpl in *.
  rewrite Hall in Hk by done. rewrite firstn_all in Hk.
  assert (w_rendered w' =
          w_rendered w
            ++ walk_dir_list (w_fs w1) input_root {[".md"%string]}) as Hlog
    by (by rewrite Hk, Hc2, Hc1).
  split; [done|].
  intros root dirs files file Hwalk Hfile Hsuf. rewrite Hlog.
  apply elem_of_app. right. apply elem_of_walk_dir_list.
  exists root, dirs, files, file. by rewrite Hsuf, elem_of_singleton.
Qed.

End SiteFacts.

(** ** The theorems at sample inputs *)

Section Instances.
Import Str StrFacts.
Local Open Scope string_scope.

Lemma not_contains (sub s : string) :
  find_at sub s 0 = None → ¬ contains sub s.
Proof. apply find_at_None. Defined.

(** The page renderer is called on a markdown file of the [_templates]
    directory, and writes a page for it. *)
Lemma templates_markdown_is_rendered :
  let run :=
    process_all (libs := Sample.libs) ["in"] ["out"]
      (World Examples.templates_site [] []) in
  run.1 = Ok ()
  ∧ w_rendered run.2 = [["in"; "_templates"; "note.md"]]
  ∧ fs_is_file (w_fs run.2) ["out"; "_templates"; "note.html"] = true.
Proof. by vm_compute. Qed.

Lemma process_all_renders_every_markdown_file_witness :
  let w := World Examples.templates_site [] [] in
  let run := process_all (libs := Sample.libs) ["in"] ["out"] w in
  run = (Ok (), run.2)
  ∧ ∃ w1,
      (copy_direct ["in"] ["out"];; copy_template_assets ["in"] ["out"]) w
      = (Ok (), w1)
      ∧ w_rendered run.2
        = app (w_rendered w) (walk_dir_list (w_fs w1) ["in"] {[ ".md" ]})
      ∧ ∀ root dirs files file,
          (root, dirs, files) ∈ fs_walk (w_fs w1) ["in"] →
          file ∈ files → Path.suffix (Path.of_string file) = ".md" →
          root /: file ∈ w_rendered run.2.
Proof.
  intros w run.
  assert (run = (Ok (), run.2)) as Hrun by (by vm_compute).
  split; [exact Hrun|].
  exact (process_all_renders_every_markdown_file
           (libs := Sample.libs) ["in"] ["out"] w run.2 Hrun).
Defined.

Lemma parse_frontmatter_delimited_witness :
  let mid := nl +:+ "title: Home" +:+ nl in
  let body := nl +:+ "# Hi" in
  ¬ contains "---" (EmptyString +:+ "--")
  ∧ ¬ contains "---" (mid +:+ "--")
  ∧ parse_frontmatter (libs := Sample.libs)
      (EmptyString +:+ "---" +:+ mid +:+ "---" +:+ body)
    = (fm ← Sample.safe_load mid; Ok (fm, body)).
Proof.
  intros mid body.
  assert (¬ contains "---" (EmptyString +:+ "--")) as H1
    by (apply not_contains; vm_compute; reflexivity).
  assert (¬ contains "---" (mid +:+ "--")) as H2
    by (apply not_contains; vm_compute; reflexivity).
  split; [exact H1|]. split; [exact H2|].
  exact (parse_frontmatter_delimited (libs := Sample.libs)
           EmptyString mid body H1 H2).
Defined.

Lemma parse_frontmatter_missing_delimiter_witness :
  ¬ contains "---" "# Hi"
  ∧ parse_frontmatter (libs := Sample.libs) "# Hi" = Ok (PyNone, "# Hi").
Proof.
  assert (¬ contains "---" "# Hi") as H1
    by (apply not_contains; vm_compute; reflexivity).
  split; [exact H1|].
  exact (parse_frontmatter_missing_delimiter (libs := Sample.libs)
           "# Hi" (or_introl H1)).
Defined.

Lemma root_page_no_breadcrumbs_witness :
  start_dir ["in"; "index.md"] = Ok ["in"]
  ∧ gen_breadcrumbs_html ["in"; "index.md"] ["in"] = Ok EmptyString.
Proof.
  apply (root_page_no_breadcrumbs ["in"; "index.md"] ["in"]).
  left. reflexivity.
Defined.

Lemma walk_terminates_iff_start_below_witness :
  let file := ["in"; "a"; "page.md"] in
  let root := ["in"] in
  let d := ["in"; "a"; "page"] in
  start_dir file = Ok d
  ∧ ((∃ fuel crumbs, collect_breadcrumbs fuel d root = Some crumbs)
     ↔ Path.is_relative_to d root = true)
  ∧ (Path.is_relative_to d root = false →
     gen_breadcrumbs_html file root = Diverge
     ∧ ∀ fuel, gen_breadcrumbs_html_fuel fuel file root = None)
  ∧ (Path.is_relative_to file root = true → file ≠ root →
     Str.has_char "/" (Path.name file) = false →
     Path.is_relative_to d root = true).
Proof.
  intros file root d.
  assert (start_dir file = Ok d) as Hd by (vm_compute; reflexivity).
  split; [exact Hd|].
  exact (walk_terminates_iff_start_below file root d Hd).
Defined.

Lemma missing_template_aborts_witness :
  let w := World Examples.fancy_site [] [] in
  let file := ["in"; "index.md"] in
  let template_file := ["in"; "_templates"; "fancy.html"] in
  fs_read (w_fs w) file = Ok Examples.fancy_page
  ∧ fs_exists (w_fs w) template_file = false
  ∧ process_markdown (libs := Sample.libs) file ["in"] ["out"] w
    = (Raise (AssertionError
                "template in/_templates/fancy.html does not exist"),
       after_first_line file ["out"; "index.html"] w)
  ∧ w_fs (after_first_line file ["out"; "index.html"] w) = w_fs w.
Proof.
  intros w file template_file.
  assert (fs_read (w_fs w) file = Ok Examples.fancy_page) as Hread
    by (vm_compute; reflexivity).
  assert (fs_exists (w_fs w) template_file = false) as Hexists
    by (vm_compute; reflexivity).
  split; [exact Hread|]. split; [exact Hexists|].
  refine (missing_template_aborts (libs := Sample.libs)
            file ["in"] ["out"] ["index.md"] ["index.html"] w
            Examples.fancy_page (nl +:+ "# Hi") "fancy"
            (PyDict {[ "template" := PyStr "fancy" ]})
            Hread _ _ _ _ Hexists); vm_compute; reflexivity.
Defined.

Lemma no_frontmatter_render_fails_witness :
  let w := World Examples.plain_site [] [] in
  let file := ["in"; "index.md"] in
  fs_read (w_fs w) file = Ok "# Hi"
  ∧ resolve_template_name PyNone = Raise AttributeError
  ∧ process_markdown (libs := Sample.libs) file ["in"] ["out"] w
    = (Raise AttributeError, after_first_line file ["out"; "index.html"] w).
Proof.
  intros w file.
  assert (fs_read (w_fs w) file = Ok "# Hi") as Hread
    by (vm_compute; reflexivity).
  split; [exact Hread|].
  refine (no_frontmatter_render_fails (libs := Sample.libs)
            file ["in"] ["out"] ["index.md"] ["index.html"] w "# Hi"
            Hread _ _ _); [vm_compute; reflexivity..|].
  intros (pre & mid & body & Heq).
  apply (not_contains "---" "# Hi"); [vm_compute; reflexivity|].
  exists pre, (mid +:+ "---" +:+ body). exact Heq.
Defined.

End Instances.

(** * More properties *)

(** ** [parse_frontmatter], in full *)

Section FrontmatterMore.
Context {libs : Externals}.
Import Str StrFacts.

Lemma contains_cons_inv (sub s : string) (c : ascii) :
  contains sub (String c s) →
  startswith (String c s) sub = true ∨ contains sub s.
Proof.
  intros (a & b & Hab). destruct a as [|x a]; simpl in Hab.
  - left. apply startswith_spec. eauto.
  - right. injection Hab as -> ->. by exists a, b.
Qed.

Lemma delimiter_head_inv (pre rest : string) :
  pre ≠ EmptyString →
  startswith (pre +:+ "--") "---" = true →
  startswith (pre +:+ "---" +:+ rest) "---" = true.
Proof.
  destruct pre as [|c1 [|c2 [|c3 pre]]]; simpl; try done;
    repeat case_match; done.
Qed.

(** What [find_at] finds is the first occurrence of the delimiter. *)
Lemma find_at_delimiter_first (s : string) (k i : nat) :
  find_at "---" s k = Some i →
  ∃ pre rest, i = (k + String.length pre)%nat ∧ s = pre +:+ "---" +:+ rest
              ∧ ¬ contains "---" (pre +:+ "--").
Proof.
  revert k; induction s as [|c s IH]; intros k; [done|].
  destruct (startswith (String c s) "---") eqn:E.
  - cbn [find_at]. rewrite E. intros [= <-].
    apply startswith_spec in E as [b Hb]. exists EmptyString, b.
    split; [simpl; lia|]. split; [done|].
    apply find_at_None with (k := 0%nat). by vm_compute.
  - cbn [find_at]. rewrite E.
    intros (pre & rest & -> & -> & Hfirst)%IH.
    exists (String c pre), rest. split; [simpl; lia|]. split; [done|].
    intros [Hhead|Htail]%contains_cons_inv; [|done].
    apply (delimiter_head_inv (String c pre) rest) in Hhead; [|done].
    simpl in Hhead, E. congruence.
Qed.

Lemma parse_frontmatter_one_delimiter (pre rest : string) :
  ¬ contains "---" (pre +:+ "--") → ¬ contains "---" rest →
  parse_frontmatter (pre +:+ "---" +:+ rest)
  = Ok (PyNone, pre +:+ "---" +:+ rest).
Proof.
  intros Hpre Hrest. unfold parse_frontmatter.
  rewrite find_0, find_at_delimiter by done.
  replace (Z.of_nat (0 + String.length pre) + 3) with (len (pre +:+ "---"))
    by (unfold len; rewrite length_app; simpl; lia).
  rewrite <- (app_assoc pre "---"), find_unfold.
  apply (find_at_None _ _ (String.length (pre +:+ "---"))) in Hrest.
  rewrite Hrest. by rewrite andb_false_r.
Qed.

Lemma parse_frontmatter_between (pre mid body : string) :
  ¬ contains "---" (pre +:+ "--") → ¬ contains "---" (mid +:+ "--") →
  parse_frontmatter (pre +:+ "---" +:+ mid +:+ "---" +:+ body)
  = (fm ← yaml_safe_load mid; Ok (fm, body)).
Proof.
  intros Hpre Hmid. unfold parse_frontmatter.
  rewrite find_0, find_at_delimiter by done.
  replace (Z.of_nat (0 + String.length pre) + 3) with (len (pre +:+ "---"))
    by (unfold len; rewrite length_app; simpl; lia).
  rewrite <- (app_assoc pre "---"), find_unfold, find_at_delimiter by done.
  rewrite !bool_decide_true by lia. cbn [andb].
  replace (Z.of_nat (String.length (pre +:+ "---") + String.length mid))
    with (len (pre +:+ "---") + len mid) by (unfold len; lia).
  rewrite slice_app.
  replace (len (pre +:+ "---") + len mid + 3)
    with (len (((pre +:+ "---") +:+ mid) +:+ "---"))
    by (unfold len; rewrite !length_app; simpl; lia).
  rewrite <- (app_assoc (pre +:+ "---") mid), <- (app_assoc _ "---" body).
  by rewrite slice_from_app.
Qed.

(** The text comes back whole, or is cut at two delimiters. *)
Lemma parse_frontmatter_split (markdown : string) :
  parse_frontmatter markdown = Ok (PyNone, markdown)
  ∨ ∃ pre mid body,
      markdown = pre +:+ "---" +:+ mid +:+ "---" +:+ body
      ∧ parse_frontmatter markdown
        = (fm ← yaml_safe_load mid; Ok (fm, body)).
Proof.
  destruct (find_at "---" markdown 0) as [i|] eqn:Hstart.
  - apply find_at_delimiter_first in Hstart as (pre & rest & _ & -> & Hpre).
    destruct (find_at "---" rest 0) as [j|] eqn:Hend.
    + apply find_at_delimiter_first in Hend as (mid & body & _ & -> & Hmid).
      right. exists pre, mid, body. split; [done|].
      by apply parse_frontmatter_between.
    + apply find_at_None in Hend. left.
      by apply parse_frontmatter_one_delimiter.
  - apply find_at_None in Hstart. left.
    apply parse_frontmatter_absent. intros (pre & mid & body & ->).
    apply Hstart. by eexists pre, _.
Qed.

(** X1: every text falls in one of three cases. It holds no three
    dashes, or none after its first three, and then there is no
    frontmatter and the body is the text; or it is cut at the first three
    dashes and at the next after them, and the result is what the loader
    makes of the text between, with the text after for body. *)
Theorem parse_frontmatter_cases (markdown : string) :
  (¬ contains "---" markdown
   ∧ parse_frontmatter markdown = Ok (PyNone, markdown))
  ∨ (∃ pre rest,
       markdown = pre +:+ "---" +:+ rest
       ∧ ¬ contains "---" (pre +:+ "--") ∧ ¬ contains "---" rest
       ∧ parse_frontmatter markdown = Ok (PyNone, markdown))
  ∨ (∃ pre mid body,
       markdown = pre +:+ "---" +:+ mid +:+ "---" +:+ body
       ∧ ¬ contains "---" (pre +:+ "--") ∧ ¬ contains "---" (mid +:+ "--")
       ∧ parse_frontmatter markdown
         = (fm ← yaml_safe_load mid; Ok (fm, body))).
Proof.
  destruct (find_at "---" markdown 0) as [i|] eqn:Hstart.
  - apply find_at_delimiter_first in Hstart as (pre & rest & _ & -> & Hpre).
    right. destruct (find_at "---" rest 0) as [j|] eqn:Hend.
    + apply find_at_delimiter_first in Hend as (mid & body & _ & -> & Hmid).
      right. exists pre, mid, body. repeat split; try done.
      by apply parse_frontmatter_between.
    + apply find_at_None in Hend. left. exists pre, rest.
      repeat split; try done. by apply parse_frontmatter_one_delimiter.
  - apply find_at_None in Hstart. left. split; [done|].
    apply parse_frontmatter_absent. intros (pre & mid & body & ->).
    apply Hstart. by eexists pre, _.
Qed.

(** X2: the body returned is always an end of the text, so the parser
    never changes or invents body text; and an exception comes from the
    loader alone, raised on a piece of the text. *)
Theorem parse_frontmatter_provenance (markdown : string) :
  match parse_frontmatter markdown with
  | Ok (fm, body) => ∃ dropped, markdown = dropped +:+ body
  | Raise e => ∃ mid, contains mid markdown ∧ yaml_safe_load mid = Raise e
  | Diverge => ∃ mid, contains mid markdown ∧ yaml_safe_load mid = Diverge
  end.
Proof.
  destruct (parse_frontmatter_split markdown)
    as [->|(pre & mid & body & -> & ->)].
  - by exists EmptyString.
  - assert (contains mid (pre +:+ "---" +:+ mid +:+ "---" +:+ body)) as Hmid.
    { exists (pre +:+ "---"), ("---" +:+ body). by rewrite !app_assoc. }
    destruct (yaml_safe_load mid) as [fm|e|] eqn:Hload; simpl.
    + exists (pre +:+ "---" +:+ mid +:+ "---"). by rewrite !app_assoc.
    + by exists mid.
    + by exists mid.
Qed.

End FrontmatterMore.

(** ** [patch_referenced_files], match by match *)

Section PatchMore.
Import Str StrFacts.

Lemma span_unquoted_spec (s file rest : string) :
  span_unquoted s = (file, rest) →
  s = file +:+ rest ∧ has_char "034" file = false.
Proof.
  revert file rest; induction s as [|c s IH]; intros file rest;
    cbn [span_unquoted].
  - by intros [= <- <-].
  - destruct (Ascii.eqb_spec c "034") as [->|Hc].
    + by intros [= <- <-].
    + destruct (span_unquoted s) as [v r]. intros [= <- <-].
      destruct (IH v r eq_refl) as [-> Hv]. split; [done|].
      cbn [has_char]. rewrite Hv, orb_false_r.
      apply Ascii.eqb_neq. congruence.
Qed.

Lemma match_attr_spec (a s : string) (pos : nat) (m : re_match) (n : nat) :
  match_attr a s pos = Some (m, n) →
  ∃ post,
    s = attr a (m_file m) +:+ post
    ∧ m_attr m = a
    ∧ m_file m ≠ EmptyString
    ∧ has_char "034" (m_file m) = false
    ∧ m_start2 m = Z.of_nat (pos + String.length a + 2)
    ∧ m_end2 m = m_start2 m + len (m_file m).
Proof.
  unfold match_attr.
  destruct (startswith s (a +:+ "=" +:+ dq)) eqn:Hs; [|done].
  apply startswith_spec in Hs as [b ->].
  replace (String.length a + 2)%nat with (String.length (a +:+ "=" +:+ dq))
    by (rewrite !length_app; simpl; lia).
  rewrite drop_app.
  destruct (span_unquoted b) as [file rest] eqn:Hspan.
  apply span_unquoted_spec in Hspan as [-> Hq].
  destruct (bool_decide_reflect (file ≠ EmptyString)) as [Hne|]; [|done].
  destruct (startswith rest dq) eqn:Hrest; [|done].
  apply startswith_spec in Hrest as [post ->]. cbn [andb].
  intros [= <- <-]. exists post. cbn [m_attr m_file m_start2 m_end2].
  unfold attr, len. rewrite !length_app.
  change (String.length (String "=" dq)) with 2%nat.
  split; [by rewrite !app_assoc|]. repeat split; try done; lia.
Qed.

Lemma match_here_spec (s : string) (pos : nat) (m : re_match) (n : nat) :
  match_here s pos = Some (m, n) →
  ∃ post,
    s = attr (m_attr m) (m_file m) +:+ post
    ∧ (m_attr m = "href"%string ∨ m_attr m = "src"%string)
    ∧ m_file m ≠ EmptyString
    ∧ has_char "034" (m_file m) = false
    ∧ m_start2 m = Z.of_nat (pos + String.length (m_attr m) + 2)
    ∧ m_end2 m = m_start2 m + len (m_file m).
Proof.
  unfold match_here.
  destruct (match_attr "href" s pos) as [[m' n']|] eqn:Hhref.
  - intros [= <- <-].
    apply match_attr_spec in Hhref as (post & -> & Ha & ? & ? & ? & ?).
    exists post. rewrite Ha. repeat split; try done. by left.
  - intros (post & -> & Ha & ? & ? & ? & ?)%match_attr_spec.
    exists post. rewrite Ha. repeat split; try done. by right.
Qed.

Lemma finditer_from_spec (s : string) (pos skip : nat) (m : re_match) :
  m ∈ finditer_from s pos skip →
  ∃ pre post,
    s = pre +:+ attr (m_attr m) (m_file m) +:+ post
    ∧ (m_attr m = "href"%string ∨ m_attr m = "src"%string)
    ∧ m_file m ≠ EmptyString
    ∧ has_char "034" (m_file m) = false
    ∧ m_start2 m
      = Z.of_nat (pos + String.length pre + String.length (m_attr m) + 2)
    ∧ m_end2 m = m_start2 m + len (m_file m).
Proof.
  revert pos skip; induction s as [|c s IH]; intros pos skip; simpl.
  { by intros ?%elem_of_nil. }
  assert (∀ k, m ∈ finditer_from s (S pos) k →
    ∃ pre post,
      String c s = pre +:+ attr (m_attr m) (m_file m) +:+ post
      ∧ (m_attr m = "href"%string ∨ m_attr m = "src"%string)
      ∧ m_file m ≠ EmptyString
      ∧ has_char "034" (m_file m) = false
      ∧ m_start2 m
        = Z.of_nat (pos + String.length pre + String.length (m_attr m) + 2)
      ∧ m_end2 m = m_start2 m + len (m_file m)) as Htail.
  { intros k (pre & post & -> & ? & ? & ? & Hs & ?)%IH.
    exists (String c pre), post. repeat split; try done.
    rewrite Hs. simpl. lia. }
  destruct skip as [|k]; [|apply Htail].
  destruct (match_here (String c s) pos) as [[m' n]|] eqn:Hhere;
    [|apply Htail].
  intros [->|Hin]%elem_of_cons; [|by eapply Htail].
  apply match_here_spec in Hhere as (post & Hs & ? & ? & ? & Hst & ?).
  exists EmptyString, post. repeat split; try done.
  rewrite Hst. simpl. lia.
Qed.

(** X3: every match the pattern finds is a quoted value of an [href] or
    [src] attribute in the text: the value is not empty, holds no double
    quote, and the span reported for it is where it stands. *)
Theorem finditer_sound (html : string) (m : re_match) :
  m ∈ finditer html →
  ∃ pre post,
    html = pre +:+ attr (m_attr m) (m_file m) +:+ post
    ∧ (m_attr m = "href"%string ∨ m_attr m = "src"%string)
    ∧ m_file m ≠ EmptyString
    ∧ has_char "034" (m_file m) = false
    ∧ m_start2 m = len pre + len (m_attr m) + 2
    ∧ m_end2 m = m_start2 m + len (m_file m)
    ∧ slice html (m_start2 m) (m_end2 m) = m_file m.
Proof.
  intros (pre & post & -> & Ha & Hne & Hq & Hs & He)%finditer_from_spec.
  exists pre, post. unfold len in *. repeat split; try done; try lia.
  rewrite He, Hs. unfold attr.
  replace (Z.of_nat (0 + String.length pre + String.length (m_attr m) + 2))
    with (len (pre +:+ m_attr m +:+ "=" +:+ dq))
    by (unfold len; rewrite !length_app; simpl; lia).
  rewrite <- (slice_app (pre +:+ m_attr m +:+ "=" +:+ dq) (m_file m)
                (dq +:+ post)) at 3.
  f_equal. by rewrite !app_assoc.
Qed.

Lemma patch_match_eq (markdown_file : Path) (h : string)
    (out : list string) (m : re_match) :
  patch_match markdown_file (h, out) m
  = if relative_ref m
    then (slice_to h (m_start2 m) +:+ asset_path markdown_file (m_file m)
            +:+ slice_from h (m_end2 m),
          out ++ [" - asset " +:+ asset_path markdown_file (m_file m)])
    else (h, out).
Proof. reflexivity. Qed.

(** A match that is not to be rewritten leaves the loop state alone. *)
Lemma patch_match_filter (markdown_file : Path) (ms : list re_match)
    (st : string * list string) :
  foldl (patch_match markdown_file) st ms
  = foldl (patch_match markdown_file) st
      (filter (λ m, relative_ref m = true) ms).
Proof.
  revert st; induction ms as [|m ms IH]; intros [h out]; [done|].
  rewrite filter_cons. cbn [foldl]. rewrite patch_match_eq.
  destruct (relative_ref m) eqn:Hm.
  - rewrite decide_True by done. cbn [foldl].
    by rewrite patch_match_eq, Hm, IH.
  - rewrite decide_False by done. apply IH.
Qed.

(** X4: a text whose references are all absolute links or fragments --
    or that holds no reference at all -- comes back as it is, and nothing
    is printed. *)
Theorem patch_no_relative_reference (html : string)
    (template_file markdown_file : Path) :
  (∀ m, m ∈ finditer html → relative_ref m = false) →
  patch_referenced_files html template_file markdown_file = (html, []).
Proof.
  intros Hall. unfold patch_referenced_files. rewrite patch_match_filter.
  replace (filter _ (finditer html)) with (@nil re_match); [done|].
  symmetry. induction (finditer html) as [|m ms IH]; [done|].
  rewrite filter_cons, decide_False.
  - apply IH. intros m' Hm'. apply Hall. by right.
  - rewrite Hall; [done | by left].
Qed.

(** X5: when exactly one reference of the text is relative, it is
    replaced where it stands by the path to the [_templates] directory
    followed by the reference itself; the rest of the text is kept, and
    one line is printed. *)
Theorem patch_one_relative_reference (html : string)
    (template_file markdown_file : Path) (m : re_match) :
  filter (λ m, relative_ref m = true) (finditer html) = [m] →
  ∃ pre post,
    html = pre +:+ attr (m_attr m) (m_file m) +:+ post
    ∧ patch_referenced_files html template_file markdown_file
      = (pre +:+ attr (m_attr m) (asset_path markdown_file (m_file m))
           +:+ post,
         [" - asset " +:+ asset_path markdown_file (m_file m)]).
Proof.
  intros Hone.
  assert (relative_ref m = true ∧ m ∈ finditer html) as [Hrel Hin].
  { apply (list_elem_of_filter (λ m, relative_ref m = true)).
    rewrite Hone. by apply list_elem_of_singleton. }
  apply finditer_from_spec in Hin
    as (pre & post & Hhtml & _ & _ & _ & Hs & He).
  replace (Z.of_nat (0 + String.length pre + String.length (m_attr m) + 2))
    with (len pre + len (m_attr m) + 2) in Hs by (unfold len; lia).
  exists pre, post. split; [done|].
  unfold patch_referenced_files. rewrite patch_match_filter, Hone.
  cbn [foldl]. rewrite patch_match_eq, Hrel. f_equal.
  rewrite He, Hs, Hhtml. unfold attr.
  set (head := pre +:+ m_attr m +:+ "=" +:+ dq).
  replace (len pre + len (m_attr m) + 2) with (len head)
    by (unfold head, len; rewrite !length_app; simpl; lia).
  replace (pre +:+ (m_attr m +:+ "=" +:+ dq +:+ m_file m +:+ dq) +:+ post)
    with (head +:+ m_file m +:+ dq +:+ post)
    by (unfold head; by rewrite !app_assoc).
  assert (slice_to (head +:+ m_file m +:+ dq +:+ post) (len head) = head)
    as ->.
  { unfold slice_to, len. rewrite length_app, norm_index_inside by lia.
    by rewrite Nat2Z.id, take_app. }
  replace (len head + len (m_file m)) with (len (head +:+ m_file m))
    by (unfold len; rewrite !length_app; lia).
  rewrite <- (app_assoc head (m_file m)), slice_from_app.
  unfold head. by rewrite !app_assoc.
Qed.

(** X6: one line is printed for each relative reference matched, in the
    order of the matches, naming the path that reference is given --
    wherever the replacement itself lands in the text. *)
Theorem patch_prints_each_relative_reference (html : string)
    (template_file markdown_file : Path) :
  (patch_referenced_files html template_file markdown_file).2
  = (λ m, " - asset " +:+ asset_path markdown_file (m_file m))
      <$> filter (λ m, relative_ref m = true) (finditer html).
Proof.
  unfold patch_referenced_files. rewrite patch_match_filter.
  assert (∀ ms st,
    Forall (λ m, relative_ref m = true) ms →
    (foldl (patch_match markdown_file) st ms).2
    = st.2 ++ ((λ m, " - asset " +:+ asset_path markdown_file (m_file m))
                 <$> ms)) as Hfold.
  { induction ms as [|m ms IH]; intros [h out] Hall; cbn [foldl].
    - simpl. by rewrite app_nil_r.
    - apply Forall_cons in Hall as [Hm Hall].
      rewrite patch_match_eq, Hm, IH by done. simpl.
      by rewrite <- (assoc_L (++)). }
  rewrite Hfold; [done|]. apply Forall_forall. intros m.
  by intros [? _]%list_elem_of_filter.
Qed.

End PatchMore.

(** ** [gen_breadcrumbs_html], at any depth *)

Section BreadcrumbMore.
Import Path PathFacts WalkFacts.
Local Open Scope nat_scope.
Local Open Scope string_scope.

Lemma ancestors_snoc (root ext : Path) (x : string) :
  ancestors root (app ext [x])
  = app (ancestors root ext) [app root (app ext [x])].
Proof.
  revert root; induction ext as [|y ext IH]; intros root; simpl.
  - done.
  - by rewrite IH, <- (assoc_L app root [y]).
Qed.

Lemma ancestors_names (root ext : Path) :
  Forall (λ s, s ≠ "/") ext → name <$> ancestors root ext = ext.
Proof.
  revert root; induction ext as [|x ext IH]; intros root Hext; [done|].
  apply Forall_cons in Hext as [Hx Hext]. simpl.
  by rewrite name_snoc, IH.
Qed.

(** The walk from below the root collects the directories on the way,
    deepest first. *)
Lemma walk_up_below (ext root : Path) (acc : list Path) (fuel : nat) :
  Forall (λ s, s ≠ "/") ext → (length ext ≤ fuel)%nat →
  walk_up fuel (app root ext) root acc
  = Some (app acc (reverse (ancestors root ext))).
Proof.
  revert acc fuel; induction ext as [|x ext IH] using rev_ind;
    intros acc fuel Hext Hfuel.
  - rewrite app_nil_r. destruct fuel; simpl; rewrite decide_True by done;
      by rewrite app_nil_r.
  - apply Forall_app in Hext as [Hext [Hx _]%Forall_cons].
    rewrite length_app in Hfuel. simpl in Hfuel.
    destruct fuel as [|fuel]; [lia|]. simpl.
    rewrite decide_False by (by apply app_ne_self; destruct ext).
    rewrite (assoc_L app), parent_snoc by done.
    rewrite IH by (done || lia).
    rewrite ancestors_snoc, reverse_app. simpl.
    by rewrite <- !(assoc_L app).
Qed.

Lemma join_separated (link : string) (links : list string) :
  Str.join " / " (link :: links) = link +:+ separated links.
Proof.
  revert link; induction links as [|l links IH]; intros link.
  - simpl. by rewrite StrFacts.app_empty_r.
  - change (Str.join " / " (link :: l :: links))
      with (link +:+ " / " +:+ Str.join " / " (l :: links)).
    by rewrite IH.
Qed.

Lemma render_crumbs_separated (N : nat) (crumbs : list Path) (i : nat)
    (html : string) :
  (1 ≤ i)%nat → N = (i + length crumbs)%nat →
  foldl (render_crumb N) html (enumerate_from i crumbs)
  = html +:+ separated (trail_links (name <$> crumbs)).
Proof.
  revert i html; induction crumbs as [|c crumbs IH]; intros i html Hi HN.
  - simpl. by rewrite StrFacts.app_empty_r.
  - cbn [enumerate_from foldl]. rewrite IH by (simpl in HN; lia || lia).
    unfold render_crumb, crumb_name, crumb_href. cbn [fst snd].
    rewrite bool_decide_true, bool_decide_false by lia.
    cbn [fmap list_fmap trail_links separated]. unfold a_tag.
    simpl in HN. rewrite length_fmap.
    replace (N - 1 - i) with (length crumbs) by lia.
    by rewrite !StrFacts.app_assoc.
Qed.

(** What the function renders for the crumbs of a walk from below the
    root. *)
Lemma breadcrumbs_html_trail (root ext : Path) :
  Forall (λ s, s ≠ "/") ext → ext ≠ [] →
  breadcrumbs_html (app (reverse (ancestors root ext)) [root])
  = trail ("root" :: ext).
Proof.
  intros Hext Hne. unfold breadcrumbs_html.
  assert (length (ancestors root ext) = length ext) as Hlen
    by (by rewrite <- (ancestors_names root ext Hext) at 2;
        rewrite length_fmap).
  rewrite length_app, length_reverse, Hlen. simpl.
  rewrite decide_False by (destruct ext; simpl; [done | lia]).
  rewrite reverse_app, reverse_involutive. simpl.
  rewrite (render_crumbs_separated _ _ 1) by (lia || (rewrite Hlen; lia)).
  rewrite ancestors_names by done.
  unfold trail, nav, render_crumb, crumb_name, crumb_href.
  cbn [trail_links fst snd]. rewrite join_separated. unfold a_tag.
  replace (length ext + 1 - 1 - 0) with (length ext) by lia.
  change (bool_decide (0 ≠ 0)) with false.
  change (bool_decide (0 = 0)) with true. cbv iota.
  rewrite !StrFacts.app_assoc. reflexivity.
Qed.

(** X7: for a file below the input root -- the root, then directories,
    then a name that holds no separator -- the crumbs are the root, each
    directory on the way and last the page without its suffix, the page
    being left out when it is an index page. Each crumb links up by as
    many parent segments as crumbs follow it, so the last link is empty;
    names go into the markup as they are. With no crumb besides the root
    the result is the empty string. *)
Theorem breadcrumbs_trail (root dirs : Path) (x : string) :
  Forall (λ s, s ≠ "/") dirs → x ≠ EmptyString →
  Str.has_char "/" x = false →
  gen_breadcrumbs_html (app root (app dirs [x])) root
  = Ok (let labels :=
          if decide (stem_of x = "index") then dirs
          else app dirs [stem_of x] in
        if decide (labels = []) then EmptyString
        else trail ("root" :: labels)).
Proof.
  intros Hdirs Hne Hx.
  pose proof (stem_of_no_separator x Hx) as Hstem.
  assert (x ≠ "/") as Hx' by (by intros ->).
  set (labels := if decide (stem_of x = "index") then dirs
                 else app dirs [stem_of x]).
  assert (start_dir (app root (app dirs [x])) = Ok (app root labels))
    as Hstart.
  { rewrite (assoc_L app), start_dir_snoc by done. unfold labels.
    case_decide; [done | by rewrite (assoc_L app)]. }
  assert (Forall (λ s, s ≠ "/") labels) as Hlabels.
  { unfold labels. case_decide; [done|].
    apply Forall_app. split; [done|]. by apply Forall_singleton. }
  apply (gen_breadcrumbs_html_fuel_enough (length labels)).
  unfold gen_breadcrumbs_html_fuel, collect_breadcrumbs.
  rewrite Hstart, walk_up_below by done. simpl.
  f_equal. f_equal. case_decide as Hl.
  - by rewrite Hl.
  - by apply breadcrumbs_html_trail.
Qed.

End BreadcrumbMore.

Section BreadcrumbOutcomes.
Import Path PathFacts WalkFacts.
Local Open Scope nat_scope.
Local Open Scope string_scope.

Lemma start_dir_Raise (file : Path) (e : exn) :
  start_dir file = Raise e → e = ValueError ∧ name file = EmptyString.
Proof.
  unfold start_dir, with_suffix. simpl.
  case_decide as Hn; [by intros [= <-] | done].
Qed.

Lemma start_dir_Ok (file d : Path) :
  start_dir file = Ok d → name file ≠ EmptyString.
Proof.
  unfold start_dir, with_suffix. simpl. by case_decide.
Qed.

Lemma breadcrumbs_html_empty (crumbs : list Path) :
  breadcrumbs_html crumbs = EmptyString ↔ length crumbs = 1.
Proof.
  unfold breadcrumbs_html. case_decide as Hlen; [done|].
  split; [|done]. intros Heq. apply (f_equal String.length) in Heq.
  rewrite StrFacts.length_app in Heq. simpl in Heq. lia.
Qed.

(** X8: the three ways the function can end. It returns markup exactly
    when the directory the walk starts from is the input root or lies
    below it, and then the empty string exactly when that directory is
    the root itself; it raises only [ValueError], and only for a path
    with an empty name; it runs forever when the starting directory is
    not at or below the root. *)
Theorem gen_breadcrumbs_html_outcomes (file root : Path) :
  match gen_breadcrumbs_html file root with
  | Ok html =>
      name file ≠ EmptyString
      ∧ ∃ d, start_dir file = Ok d ∧ is_relative_to d root = true
             ∧ (html = EmptyString ↔ d = root)
  | Raise e => e = ValueError ∧ name file = EmptyString
  | Diverge =>
      name file ≠ EmptyString
      ∧ ∃ d, start_dir file = Ok d ∧ is_relative_to d root = false
  end.
Proof.
  destruct (start_dir file) as [d|e|] eqn:Hd.
  - pose proof (start_dir_Ok file d Hd) as Hname.
    destruct (is_relative_to d root) eqn:Hrel.
    + pose proof Hrel as (fuel & r & Hw)%(walk_up_terminates d root []).
      rewrite (gen_breadcrumbs_html_fuel_enough fuel file root
                 (Ok (breadcrumbs_html (app r [root])))).
      * split; [done|]. exists d. repeat split; try done.
        -- intros Hlen%breadcrumbs_html_empty.
           rewrite length_app in Hlen. simpl in Hlen.
           apply (walk_up_nil _ _ _ _ _ Hw). simpl. lia.
        -- intros ->. apply breadcrumbs_html_empty.
           destruct fuel; simpl in Hw; rewrite decide_True in Hw by done;
             by injection Hw as <-.
      * unfold gen_breadcrumbs_html_fuel, collect_breadcrumbs.
        by rewrite Hd, Hw.
    + replace (gen_breadcrumbs_html file root) with (@Diverge string).
      * split; [done|]. by exists d.
      * symmetry. apply gen_breadcrumbs_html_Diverge. intros fuel.
        unfold gen_breadcrumbs_html_fuel, collect_breadcrumbs.
        by rewrite Hd, walk_up_diverges.
  - rewrite (gen_breadcrumbs_html_fuel_enough 0 file root (Raise e)).
    + by apply start_dir_Raise.
    + unfold gen_breadcrumbs_html_fuel. by rewrite Hd.
  - by destruct (start_dir_not_Diverge file).
Qed.

End BreadcrumbOutcomes.

(** ** [walk_dir] *)

Section WalkDirMore.
Context {libs : Externals} {F : Type} {os : FileSystem F}.
Import Path PathFacts.

Lemma name_nonempty_snoc (q : Path) :
  name q ≠ EmptyString →
  ∃ q' x, q = q' ++ [x] ∧ name q = x ∧ (q' = [] → x ≠ "/"%string).
Proof.
  intros Hq. destruct q as [|x q _] using rev_ind; [done|].
  exists q, x. split; [done|].
  destruct q as [|y q].
  - assert (x ≠ "/"%string) as Hx by (by intros ->).
    split; [by apply (name_snoc []) | done].
  - split; [by apply name_snoc_below | done].
Qed.

(** Joining keeps the name of what is joined. *)
Lemma name_join (root q : Path) :
  name q ≠ EmptyString → name (join root q) = name q.
Proof.
  intros Hq. unfold join. destruct (anchored q) eqn:Ha; [done|].
  destruct (name_nonempty_snoc q Hq) as (q' & x & -> & -> & Hx).
  rewrite (assoc_L (++)). destruct (decide (root ++ q' = [])) as [Hnil|Hnil].
  - apply app_eq_nil in Hnil as [-> ->]. by apply (name_snoc []), Hx.
  - by apply name_snoc_below.
Qed.

(** What is yielded for a file name with a requested suffix has that
    suffix. *)
Lemma yielded_suffix (root : Path) (file : string) (extensions : gset string) :
  EmptyString ∉ extensions →
  suffix (of_string file) ∈ extensions →
  suffix (root /: file) = suffix (of_string file).
Proof.
  intros Hempty Hsuf. unfold join_str, suffix in *.
  rewrite name_join; [done|].
  intros Hname. by rewrite Hname in Hsuf.
Qed.

Lemma copy_extensions_hold (s : string) :
  s ∈ DIRECT_COPY_EXTENSIONS →
  s ≠ EmptyString ∧ s ≠ ".md"%string.
Proof.
  unfold DIRECT_COPY_EXTENSIONS.
  rewrite !elem_of_union, !elem_of_singleton.
  intros [[[[[->| ->]| ->]| ->]| ->]| ->]; by split.
Qed.

(** X9: every path the walk yields carries one of the requested
    suffixes. *)
Theorem walk_dir_suffix (fs : F) (dir : Path) (extensions : gset string)
    (p : Path) :
  EmptyString ∉ extensions →
  p ∈ walk_dir_list fs dir extensions →
  suffix p ∈ extensions.
Proof.
  intros Hempty
    (root & dirs & files & file & _ & _ & Hsuf & ->)%elem_of_walk_dir_list.
  by rewrite (yielded_suffix root file extensions).
Qed.

(** X10: no file is both rendered and copied: a path the markdown loop
    takes is taken by neither copying loop, whichever directories they
    walk. *)
Theorem rendered_never_copied (fs fs' : F) (dir dir' : Path) (p : Path) :
  p ∈ walk_dir_list fs dir {[ ".md"%string ]} →
  (p ∉ walk_dir_list fs' dir' DIRECT_COPY_EXTENSIONS)
  ∧ (p ∉ walk_dir_list fs' dir'
           (DIRECT_COPY_EXTENSIONS ∖ {[ ".html"%string ]})).
Proof.
  intros (root & dirs & files & file & _ & _ & Hmd & ->)%elem_of_walk_dir_list.
  assert (suffix (root /: file) = ".md"%string) as Hsuf.
  { rewrite (yielded_suffix root file {[ ".md"%string ]}); [|by
      intros ?%elem_of_singleton|done].
    by apply elem_of_singleton in Hmd. }
  assert (∀ extensions : gset string,
    extensions ⊆ DIRECT_COPY_EXTENSIONS →
    root /: file ∉ walk_dir_list fs' dir' extensions) as Hnot.
  { intros extensions Hsub
      (root' & dirs' & files' & file' & _ & _ & Hcopy & Heq)%elem_of_walk_dir_list.
    rewrite Heq in Hsuf.
    rewrite (yielded_suffix root' file' extensions) in Hsuf; [| |done].
    - rewrite Hsuf in Hcopy.
      by apply Hsub, copy_extensions_hold in Hcopy as [_ ?].
    - by intros [? _]%Hsub%copy_extensions_hold. }
  split; apply Hnot; [done|]. apply subseteq_difference_l. done.
Qed.

End WalkDirMore.

(** ** The breadcrumbs of a render *)

Section BreadcrumbInRender.
Import Path PathFacts.

Lemma name_app (root q : Path) :
  name q ≠ EmptyString → name (root ++ q) = name q.
Proof.
  intros Hq.
  destruct (name_nonempty_snoc q Hq) as (q' & x & -> & -> & Hx).
  rewrite (assoc_L (++)). destruct (decide (root ++ q' = [])) as [Hnil|Hnil].
  - apply app_eq_nil in Hnil as [-> ->]. by apply (name_snoc []), Hx.
  - by apply name_snoc_below.
Qed.

Lemma relative_to_app (p root rel : Path) :
  relative_to p root = Ok rel → p = root ++ rel.
Proof.
  unfold relative_to. destruct root as [|x root].
  - case_match; [done|]. by intros [= <-].
  - case_decide as Heq; [|done]. intros [= <-].
    by rewrite <- Heq at 1; rewrite take_drop.
Qed.

(** X17: inside a render the walk for the breadcrumbs always ends. The
    render has by then found the file below the input root, with a name
    to give the suffix [.html] to; for such a file, its name holding no
    separator, the function returns markup: it neither raises nor runs
    forever. *)
Theorem render_breadcrumbs_end (file input_root rel rel_html : Path) :
  relative_to file input_root = Ok rel →
  with_suffix rel ".html" = Ok rel_html →
  Str.has_char "/" (name file) = false →
  ∃ html, gen_breadcrumbs_html file input_root = Ok html.
Proof.
  intros Hrel Hhtml Hname.
  assert (name rel ≠ EmptyString) as Hrelname.
  { unfold with_suffix in Hhtml. simpl in Hhtml. by case_decide. }
  pose proof (relative_to_app _ _ _ Hrel) as ->.
  assert (is_relative_to (input_root ++ rel) input_root = true) as Hbelow
    by (unfold is_relative_to; by rewrite Hrel).
  assert (input_root ++ rel ≠ input_root) as Hne.
  { apply app_ne_self. by intros ->. }
  destruct (start_dir (input_root ++ rel)) as [d|e|] eqn:Hd.
  - pose proof (start_dir_below _ _ _ Hd Hbelow Hne Hname)
      as (fuel & r & Hw)%(WalkFacts.walk_up_terminates d input_root []).
    eexists. apply (WalkFacts.gen_breadcrumbs_html_fuel_enough fuel).
    unfold gen_breadcrumbs_html_fuel, collect_breadcrumbs.
    by rewrite Hd, Hw.
  - apply start_dir_Raise in Hd as [_ Hempty].
    by rewrite name_app in Hempty.
  - by destruct (WalkFacts.start_dir_not_Diverge (input_root ++ rel)).
Qed.

End BreadcrumbInRender.

(** ** [process_markdown], step by step *)

Section RenderMore.
Context {libs : Externals} {F : Type} {os : FileSystem F}.

Lemma split_char_components (sep : ascii) (s c : string) :
  c ∈ Str.split_char sep s → Str.has_char sep c = false.
Proof.
  revert c; induction s as [|d s IH]; intros c; cbn [Str.split_char].
  - by intros ->%list_elem_of_singleton.
  - destruct (Ascii.eqb_spec sep d) as [->|Hne].
    + intros [->|Hc]%elem_of_cons; [done | by apply IH].
    + destruct (Str.split_char sep s) as [|w ws] eqn:Hs.
      * intros ->%list_elem_of_singleton. cbn [Str.has_char].
        by apply Ascii.eqb_neq in Hne as ->.
      * intros [->|Hc]%elem_of_cons.
        -- cbn [Str.has_char]. apply Ascii.eqb_neq in Hne as ->.
           apply IH. by left.
        -- apply IH. by right.
Qed.

Lemma of_string_relative (s : string) :
  Str.startswith s "/" = false → Path.anchored (Path.of_string s) = false.
Proof.
  intros Hs. unfold Path.of_string. rewrite Hs.
  destruct (filter _ _) as [|c comps] eqn:Hf; [done|].
  assert (c ∈ filter (λ c, c ≠ EmptyString ∧ c ≠ "."%string)
                (Str.split_char "/" s)) as Hc by (rewrite Hf; by left).
  apply list_elem_of_filter in Hc as [_ Hc%split_char_components].
  unfold Path.anchored. destruct (decide (c = "/"%string)) as [->|Hne]; [done|].
  repeat case_match; simplify_eq; done.
Qed.

Lemma relative_to_unanchored (p root : Path) :
  Path.anchored root = true → Path.anchored p = false →
  Path.relative_to p root = Raise ValueError.
Proof.
  intros Hroot Hp. unfold Path.relative_to.
  destruct root as [|x root]; [done|].
  case_decide as Heq; [|done]. exfalso.
  destruct p as [|y p]; [done|]. simpl in Heq. injection Heq as -> _.
  simpl in *. congruence.
Qed.

Lemma for_each_print (lines : list string) (w : world F) :
  for_each lines print w
  = (Ok (), World (w_fs w) (w_stdout w ++ lines) (w_rendered w)).
Proof.
  revert w; induction lines as [|l lines IH]; intros [fs out r]; simpl.
  - by rewrite app_nil_r.
  - unfold mbind, M_bind, print. simpl. rewrite IH. simpl.
    by rewrite <- (assoc_L (++)).
Qed.

#[local] Opaque Path.join_str Path.join Path.to_str patch_referenced_files
  Str.replace gen_breadcrumbs_html parse_frontmatter resolve_template_name
  Path.relative_to Path.with_suffix Path.parent.

Ltac run_render :=
  unfold process_markdown, mbind, M_bind, mret, M_ret, note_render, ask,
    raise, lift, print; simpl.

(** X11: a render that meets no error. The page is the template, its
    references patched, with the four tokens replaced in turn: the title
    (empty without one), the date line (empty without a date), the
    rendered body, the breadcrumbs; so a token brought in by an earlier
    replacement is replaced by the later ones. The render prints its line
    and the lines of the patching, makes the directory of the output file
    and writes the page there: the path below the input root, with the
    suffix [.html], below the output root. *)
Theorem process_markdown_page (file input_root output_root rel rel_html : Path)
    (w : world F) (text body name template title breadcrumbs : string)
    (d : gmap string pyval) :
  let template_file := input_root /: "_templates" /: (name +:+ ".html") in
  let output_file := Path.join output_root rel_html in
  let patched := patch_referenced_files template template_file file in
  let date_line :=
    match d !! "date"%string with
    | Some date => "Written " +:+ py_str date
    | None => EmptyString
    end in
  let page :=
    Str.replace
      (Str.replace
         (Str.replace (Str.replace patched.1 "$$DOC_TITLE$$" title)
            "$$DOC_DATE$$" date_line)
         "$$DOC_CONTENT$$" (mistletoe_markdown body))
      "$$BREADCRUMBS$$" breadcrumbs in
  fs_read (w_fs w) file = Ok text →
  Path.relative_to file input_root = Ok rel →
  Path.with_suffix rel ".html" = Ok rel_html →
  parse_frontmatter text = Ok (PyDict d, body) →
  resolve_template_name (PyDict d) = Ok name →
  fs_exists (w_fs w) template_file = true →
  fs_read (w_fs w) template_file = Ok template →
  default (PyStr EmptyString) (d !! "title"%string) = PyStr title →
  gen_breadcrumbs_html file input_root = Ok breadcrumbs →
  process_markdown file input_root output_root w
  = (on_fs (fs_mkdir (Path.parent output_file));;
     on_fs (fs_write output_file page))
      (World (w_fs w)
         (w_stdout w
            ++ ("processing " +:+ Path.to_str file +:+ " -> "
                  +:+ Path.to_str output_file) :: patched.2)
         (w_rendered w ++ [file])).
Proof.
  intros template_file output_file patched date_line page
    Hread Hrel Hhtml Hparse Hname Hexists Htemplate Htitle Hcrumbs.
  run_render.
  rewrite Hread, Hrel. simpl. rewrite Hhtml. simpl. rewrite Hparse. simpl.
  rewrite Hname. simpl. fold template_file. rewrite Hexists. simpl.
  rewrite Htemplate. fold patched.
  destruct patched as [html printed] eqn:Hpatched.
  rewrite for_each_print. simpl. rewrite Htitle. simpl.
  fold output_file. subst page date_line. simpl.
  rewrite <- (assoc_L (++)). simpl.
  destruct (d !! "date"%string) as [date|] eqn:Hdate; simpl;
    rewrite Hcrumbs; reflexivity.
Qed.

(** X13: a title that is not a string stops the render with
    [TypeError] at the first replacement: the template has been read and
    patched and the lines printed, but nothing is made or written. *)
Theorem process_markdown_title_not_string
    (file input_root output_root rel rel_html : Path)
    (w : world F) (text body name template : string)
    (d : gmap string pyval) (title : pyval) :
  let template_file := input_root /: "_templates" /: (name +:+ ".html") in
  let output_file := Path.join output_root rel_html in
  let patched := patch_referenced_files template template_file file in
  fs_read (w_fs w) file = Ok text →
  Path.relative_to file input_root = Ok rel →
  Path.with_suffix rel ".html" = Ok rel_html →
  parse_frontmatter text = Ok (PyDict d, body) →
  resolve_template_name (PyDict d) = Ok name →
  fs_exists (w_fs w) template_file = true →
  fs_read (w_fs w) template_file = Ok template →
  d !! "title"%string = Some title →
  (∀ s, title ≠ PyStr s) →
  process_markdown file input_root output_root w
  = (Raise TypeError,
     World (w_fs w)
       (w_stdout w
          ++ ("processing " +:+ Path.to_str file +:+ " -> "
                +:+ Path.to_str output_file) :: patched.2)
       (w_rendered w ++ [file])).
Proof.
  intros template_file output_file patched
    Hread Hrel Hhtml Hparse Hname Hexists Htemplate Htitle Hnot.
  run_render.
  rewrite Hread, Hrel. simpl. rewrite Hhtml. simpl. rewrite Hparse. simpl.
  rewrite Hname. simpl. fold template_file. rewrite Hexists. simpl.
  rewrite Htemplate. fold patched.
  destruct patched as [html printed] eqn:Hpatched.
  rewrite for_each_print. simpl. rewrite Htitle. simpl.
  fold output_file. rewrite <- (assoc_L (++)). simpl.
  destruct title; try done. by destruct (Hnot s).
Qed.

Lemma keeps_fs_ret {A} (a : A) : keeps_fs (mret a : M F A).
Proof. by intros w. Qed.

Lemma keeps_fs_bind {A B} (m : M F A) (f : A → M F B) :
  keeps_fs m → (∀ a, keeps_fs (f a)) → keeps_fs (m ≫= f).
Proof.
  intros Hm Hf w. unfold mbind, M_bind. specialize (Hm w).
  destruct (m w) as [[a|e|] w']; simpl in *; [|done..].
  by rewrite Hf.
Qed.

Lemma keeps_fs_lift {A} (o : outcome A) : keeps_fs (lift o : M F A).
Proof. by intros w. Qed.

Lemma keeps_fs_ask {A} (q : F → A) : keeps_fs (ask q : M F A).
Proof. by intros w. Qed.

Lemma keeps_fs_print (line : string) : keeps_fs (print line : M F unit).
Proof. by intros w. Qed.

Lemma keeps_fs_for_each {A} (l : list A) (body : A → M F unit) :
  (∀ x, keeps_fs (body x)) → keeps_fs (for_each l body).
Proof.
  intros Hbody. induction l as [|x l IH]; simpl.
  - apply keeps_fs_ret.
  - apply keeps_fs_bind; [apply Hbody | by intros _].
Qed.

Ltac fs_pure :=
  repeat first
    [ apply keeps_fs_ret | apply keeps_fs_lift | apply keeps_fs_ask
    | apply keeps_fs_print
    | apply keeps_fs_for_each; intros
    | apply keeps_fs_bind; [|intros]
    | by intros ?
    | case_match ].

Section Frame.
Variables file input_root output_root : Path.

#[warnings="-notation-for-abbreviation"]
Local Notation touches := (render_touches file input_root output_root).

Lemma touches_bind {A B} (m : M F A) (f : A → M F B) :
  keeps_fs m → (∀ a, touches (f a)) → touches (m ≫= f).
Proof.
  intros Hm Hf w. unfold mbind, M_bind. specialize (Hm w).
  destruct (m w) as [[a|e|] w']; simpl in *;
    [| by left; congruence | by left; congruence].
  rewrite <- Hm. apply Hf.
Qed.

Lemma touches_lift_bind {A B} (o : outcome A) (f : A → M F B) :
  (∀ a, o = Ok a → touches (f a)) → touches (lift o ≫= f).
Proof.
  intros Hf w. unfold mbind, M_bind, lift.
  destruct o as [a|e|]; simpl; [by apply Hf | by left | by left].
Qed.

Lemma touches_write (rel rel_html : Path) (page : string) :
  Path.relative_to file input_root = Ok rel →
  Path.with_suffix rel ".html" = Ok rel_html →
  touches (on_fs (fs_mkdir (Path.parent (Path.join output_root rel_html)));;
           on_fs (fs_write (Path.join output_root rel_html) page)).
Proof.
  intros Hrel Hhtml w. right. exists rel, rel_html.
  split; [done|]. split; [done|]. unfold mbind, M_bind, on_fs. simpl.
  destruct (fs_mkdir _ (w_fs w)) as [[[]|e|] fs1]; simpl;
    [|by left..].
  right. exists page. by destruct (fs_write _ page fs1).
Qed.


End Frame.

Lemma for_each_rendered_cases (files : list Path)
    (input_root output_root : Path) (w : world F) :
  let run :=
    for_each files (λ file, process_markdown file input_root output_root) w in
  (run.1 = Ok () ∧ w_rendered run.2 = w_rendered w ++ files)
  ∨ (∃ before file after wk,
       files = before ++ file :: after
       ∧ run = process_markdown file input_root output_root wk
       ∧ run.1 ≠ Ok ()
       ∧ w_rendered run.2 = w_rendered w ++ before ++ [file]).
Proof.
  revert w; induction files as [|file files IH]; intros w; simpl.
  - left. by rewrite app_nil_r.
  - unfold mbind, M_bind.
    pose proof (process_markdown_rendered file input_root output_root w) as Hw.
    destruct (process_markdown file input_root output_root w)
      as [[[]|e|] w1] eqn:Hrun; simpl in *.
    + destruct (IH w1) as [[Hok Hlog]|(before & f & after & wk & -> & Heq & Hne & Hlog)].
      * left. split; [done|]. by rewrite Hlog, Hw, <- (assoc_L (++)).
      * right. exists (file :: before), f, after, wk.
        repeat split; try done.
        rewrite Hlog, Hw, <- !(assoc_L (++)). done.
    + right. exists [], file, files, w. by rewrite Hrun.
    + right. exists [], file, files, w. by rewrite Hrun.
Qed.



End RenderMore.

(** ** The two tests for markdown *)

Section WatcherMore.
Import Str StrFacts.

Lemma str_take_drop (n : nat) (s : string) : take n s +:+ drop n s = s.
Proof.
  revert s; induction n as [|n IH]; intros [|c s]; simpl; try done.
  by rewrite IH.
Qed.

Lemma str_length_drop (n : nat) (s : string) :
  String.length (drop n s) = (String.length s - n)%nat.
Proof.
  revert s; induction n as [|n IH]; intros [|c s]; simpl; try done.
Qed.

Lemma endswith_spec (s p : string) :
  endswith s p = true ↔ ∃ a, s = a +:+ p.
Proof.
  unfold endswith. split.
  - intros [_ Heq%String.eqb_eq]%andb_true_iff.
    exists (take (String.length s - String.length p) s).
    rewrite <- (str_take_drop (String.length s - String.length p) s) at 1.
    by f_equal.
  - intros [a ->]. rewrite length_app. apply andb_true_iff. split.
    + apply Nat.leb_le. lia.
    + replace (String.length a + String.length p - String.length p)%nat
        with (String.length a) by lia.
      rewrite drop_app. apply String.eqb_refl.
Qed.

Lemma rfind_char_at_None (c : ascii) (s : string) (i : nat) :
  has_char c s = false → rfind_char_at c s i = None.
Proof.
  revert i; induction s as [|d s IH]; intros i; cbn [has_char rfind_char_at];
    [done|].
  intros [Hd Hs]%orb_false_iff. by rewrite IH, Hd.
Qed.

Lemma rfind_char_at_last (c : ascii) (a b : string) (i : nat) :
  has_char c b = false →
  rfind_char_at c (a +:+ String c b) i = Some (i + String.length a)%nat.
Proof.
  intros Hb. revert i; induction a as [|d a IH]; intros i.
  - cbn [append rfind_char_at]. rewrite rfind_char_at_None by done.
    rewrite Ascii.eqb_refl. f_equal. simpl. lia.
  - change (String d a +:+ String c b) with (String d (a +:+ String c b)).
    cbn [rfind_char_at]. rewrite IH. f_equal. simpl. lia.
Qed.

(** X16: the walk takes a file name for markdown when its suffix is
    [.md]; the watcher takes a path for markdown when it ends in [.md].
    On a name the two tests agree except for the name [.md] itself, which
    has no suffix: the watcher renders such a file, the full pass never
    does. *)
Theorem markdown_tests_agree (name : string) :
  Path.suffix_of name = ".md"%string
  ↔ endswith name ".md" = true ∧ name ≠ ".md"%string.
Proof.
  split.
  - intros Hsuf. split; [|by intros ->].
    unfold Path.suffix_of in Hsuf. case_bool_decide; [|done].
    apply endswith_spec.
    exists (take (norm_index (len name) (rfind_char name ".")) name).
    unfold slice_from in Hsuf.
    rewrite <- (str_take_drop (norm_index (len name) (rfind_char name ".")) name)
      at 1.
    by f_equal.
  - intros [[a ->]%endswith_spec Hne].
    assert (a ≠ EmptyString) as Ha by (by intros ->).
    unfold Path.suffix_of, rfind_char.
    rewrite (rfind_char_at_last "." a "md" 0) by done.
    unfold len. rewrite length_app. simpl String.length.
    rewrite bool_decide_true by (destruct a; [done | simpl; lia]).
    unfold slice_from, len. rewrite length_app, norm_index_inside
      by (simpl; lia).
    by rewrite Nat2Z.id, Nat.add_0_l, drop_app.
Qed.

End WatcherMore.

(** ** The further theorems at sample inputs *)

Section MoreInstances.
Local Open Scope string_scope.

Lemma finditer_sound_witness :
  let html := "<link " +:+ attr "href" "a.css" +:+ ">" in
  let m := {| m_attr := "href"; m_file := "a.css";
              m_start2 := 12; m_end2 := 17 |} in
  m ∈ finditer html
  ∧ ∃ pre post,
      html = pre +:+ attr (m_attr m) (m_file m) +:+ post
      ∧ (m_attr m = "href" ∨ m_attr m = "src")
      ∧ m_file m ≠ EmptyString
      ∧ Str.has_char "034" (m_file m) = false
      ∧ m_start2 m = (Str.len pre + Str.len (m_attr m) + 2)%Z
      ∧ m_end2 m = (m_start2 m + Str.len (m_file m))%Z
      ∧ Str.slice html (m_start2 m) (m_end2 m) = m_file m.
Proof.
  intros html m.
  assert (m ∈ finditer html) as Hm by (vm_compute; left).
  split; [exact Hm|]. exact (finditer_sound html m Hm).
Defined.

Lemma patch_no_relative_reference_witness :
  let html :=
    "<a " +:+ attr "href" "https://x.com" +:+ "><a " +:+ attr "href" "#top"
      +:+ ">" in
  (∀ m, m ∈ finditer html → relative_ref m = false)
  ∧ patch_referenced_files html ["in"; "_templates"; "default.html"]
      ["in"; "a"; "page.md"] = (html, []).
Proof.
  intros html.
  assert (∀ m, m ∈ finditer html → relative_ref m = false) as Hall.
  { intros m Hm. vm_compute in Hm.
    apply elem_of_cons in Hm as [->|Hm]; [reflexivity|].
    apply list_elem_of_singleton in Hm as ->. reflexivity. }
  split; [exact Hall|].
  exact (patch_no_relative_reference html _ _ Hall).
Defined.

Lemma patch_one_relative_reference_witness :
  let html :=
    "<a " +:+ attr "href" "https://x.com" +:+ "><img "
      +:+ attr "src" "logo.png" +:+ ">" in
  let m := {| m_attr := "src"; m_file := "logo.png";
              m_start2 := 34; m_end2 := 42 |} in
  let file := ["in"; "a"; "page.md"] in
  filter (λ m, relative_ref m = true) (finditer html) = [m]
  ∧ ∃ pre post,
      html = pre +:+ attr (m_attr m) (m_file m) +:+ post
      ∧ patch_referenced_files html ["in"; "_templates"; "default.html"] file
        = (pre +:+ attr (m_attr m) (asset_path file (m_file m)) +:+ post,
           [" - asset " +:+ asset_path file (m_file m)]).
Proof.
  intros html m file.
  assert (filter (λ m, relative_ref m = true) (finditer html) = [m]) as Hone
    by (vm_compute; reflexivity).
  split; [exact Hone|].
  exact (patch_one_relative_reference html _ file m Hone).
Defined.

Lemma breadcrumbs_trail_witness :
  Forall (λ s, s ≠ "/") ["a"; "b"]
  ∧ gen_breadcrumbs_html ["in"; "a"; "b"; "page.md"] ["in"]
    = Ok (trail ["root"; "a"; "b"; "page"]).
Proof.
  assert (Forall (λ s, s ≠ "/") ["a"; "b"]) as Hdirs
    by (repeat constructor; discriminate).
  split; [exact Hdirs|].
  exact (breadcrumbs_trail ["in"] ["a"; "b"] "page.md" Hdirs
           ltac:(discriminate) eq_refl).
Defined.

Lemma walk_dir_suffix_witness :
  let p := ["in"; "_templates"; "note.md"] in
  (EmptyString ∉ ({[ ".md" ]} : gset string))
  ∧ p ∈ walk_dir_list Examples.templates_site ["in"] {[ ".md" ]}
  ∧ Path.suffix p ∈ ({[ ".md" ]} : gset string).
Proof.
  intros p.
  assert (EmptyString ∉ ({[ ".md" ]} : gset string)) as Hempty
    by (intros H%elem_of_singleton; discriminate).
  assert (p ∈ walk_dir_list Examples.templates_site ["in"] {[ ".md" ]})
    as Hp by (vm_compute; left).
  split; [exact Hempty|]. split; [exact Hp|].
  exact (walk_dir_suffix _ _ _ p Hempty Hp).
Defined.

Lemma rendered_never_copied_witness :
  let p := ["in"; "_templates"; "note.md"] in
  p ∈ walk_dir_list Examples.templates_site ["in"] {[ ".md" ]}
  ∧ (p ∉ walk_dir_list Examples.templates_site ["in"] DIRECT_COPY_EXTENSIONS)
  ∧ (p ∉ walk_dir_list Examples.templates_site ["in"]
           (DIRECT_COPY_EXTENSIONS ∖ {[ ".html" ]})).
Proof.
  intros p.
  assert (p ∈ walk_dir_list Examples.templates_site ["in"] {[ ".md" ]})
    as Hp by (vm_compute; left).
  split; [exact Hp|].
  exact (rendered_never_copied _ Examples.templates_site ["in"]
           ["in"] p Hp).
Defined.

Lemma process_markdown_page_witness :
  let w := World Examples.home_site [] [] in
  let file := ["in"; "a"; "index.md"] in
  let template_file := ["in"; "_templates"; "default.html"] in
  let output_file := ["out"; "a"; "index.html"] in
  let page :=
    "<link " +:+ attr "href" "../_templates/s.css"
      +:+ "><title>Home</title>" +:+ trail ["root"; "a"] +:+ "<p># Hi</p>" in
  fs_read (w_fs w) file = Ok Examples.home_page
  ∧ fs_read (w_fs w) template_file = Ok Examples.default_template
  ∧ process_markdown (libs := Sample.libs) file ["in"] ["out"] w
    = (on_fs (fs_mkdir ["out"; "a"]);; on_fs (fs_write output_file page))
        (World (w_fs w)
           ["processing in/a/index.md -> out/a/index.html";
            " - asset ../_templates/s.css"]
           [file]).
Proof.
  intros w file template_file output_file page.
  assert (fs_read (w_fs w) file = Ok Examples.home_page) as Hread
    by (vm_compute; reflexivity).
  assert (fs_read (w_fs w) template_file = Ok Examples.default_template)
    as Htemplate by (vm_compute; reflexivity).
  split; [exact Hread|]. split; [exact Htemplate|].
  refine (eq_trans
    (process_markdown_page (libs := Sample.libs)
       file ["in"] ["out"] ["a"; "index.md"] ["a"; "index.html"] w
       Examples.home_page (nl +:+ "# Hi") "default"
       Examples.default_template "Home" (trail ["root"; "a"])
       {[ "title" := PyStr "Home" ]}
       Hread _ _ _ _ _ Htemplate _ _) _); vm_compute; reflexivity.
Defined.

Lemma process_markdown_title_not_string_witness :
  let w := World Examples.year_site [] [] in
  let file := ["in"; "index.md"] in
  let template_file := ["in"; "_templates"; "default.html"] in
  fs_read (w_fs w) file = Ok Examples.year_page
  ∧ parse_frontmatter (libs := SampleTyped.libs) Examples.year_page
    = Ok (PyDict {[ "title" := PyInt 2024 ]}, nl +:+ "# Hi")
  ∧ process_markdown (libs := SampleTyped.libs) file ["in"] ["out"] w
    = (Raise TypeError,
       World (w_fs w)
         ["processing in/index.md -> out/index.html";
          " - asset _templates/s.css"]
         [file]).
Proof.
  intros w file template_file.
  assert (fs_read (w_fs w) file = Ok Examples.year_page) as Hread
    by (vm_compute; reflexivity).
  assert (parse_frontmatter (libs := SampleTyped.libs) Examples.year_page
          = Ok (PyDict {[ "title" := PyInt 2024 ]}, nl +:+ "# Hi")) as Hparse
    by (vm_compute; reflexivity).
  split; [exact Hread|]. split; [exact Hparse|].
  refine (eq_trans
    (process_markdown_title_not_string (libs := SampleTyped.libs)
       file ["in"] ["out"] ["index.md"] ["index.html"] w
       Examples.year_page (nl +:+ "# Hi") "default"
       Examples.default_template {[ "title" := PyInt 2024 ]} (PyInt 2024)
       Hread _ _ Hparse _ _ _ _ _) _);
    try (vm_compute; reflexivity).
  intros s. discriminate.
Defined.


Lemma render_breadcrumbs_end_witness :
  Path.relative_to ["in"; "a"; "page.md"] ["in"] = Ok ["a"; "page.md"]
  ∧ Path.with_suffix ["a"; "page.md"] ".html" = Ok ["a"; "page.html"]
  ∧ ∃ html, gen_breadcrumbs_html ["in"; "a"; "page.md"] ["in"] = Ok html.
Proof.
  split; [reflexivity|]. split; [reflexivity|].
  exact (render_breadcrumbs_end ["in"; "a"; "page.md"] ["in"]
           ["a"; "page.md"] ["a"; "page.html"] eq_refl eq_refl eq_refl).
Defined.

End MoreInstances.
